(** * sym-data: weapon statistics scraped from a saved HTML page

    A shallow embedding of the repository's JavaScript:

    - [utils.js]: [prune] (the text normaliser) and [prettifySymData]
      (the hand-written pretty printer);
    - the current entry script (the one that imports [utils.js] and
      defines [getFssm]): element lookups, the rule list and the loop
      over weapon classes and weapons;
    - the earlier entry script (with the two first-spread-multiplier
      rules written out inline), kept as [Legacy].

    The JavaScript runtime the scripts rely on is modelled first:
    strings as sequences of code units, numbers as IEEE 754 binary64
    values, objects as insertion-ordered property lists, and the DOM as
    a tree of text, comment and element nodes. *)

From Stdlib Require Import ZArith QArith Qround List String Ascii Bool Lia.
From Stdlib Require Import SpecFloat DecimalString DecimalPos DecimalN Qpower.
From Stdlib Require Import Permutation.
Import ListNotations.

Local Open Scope list_scope.
Local Open Scope string_scope.
Local Open Scope Z_scope.

(* ===================================================================== *)
(** ** JavaScript strings *)
(* ===================================================================== *)

(** A JavaScript string is a sequence of UTF-16 code units.  The model
    carries the code units below 256 as [ascii], so the degree sign
    U+00B0 is the single character 176. *)
Module JSString.

Definition LF : string := String (ascii_of_nat 10) EmptyString.
Definition DQUOTE : string := String (ascii_of_nat 34) EmptyString.
Definition SPACE : ascii := ascii_of_nat 32.
Definition DEGREE : ascii := ascii_of_nat 176.

(** [s.split(sep)] for a separator of one code unit. *)
Fixpoint split (sep : ascii) (s : string) : list string :=
  match s with
  | EmptyString => [EmptyString]
  | String c s' =>
      if Ascii.eqb c sep then EmptyString :: split sep s'
      else match split sep s' with
           | piece :: pieces => String c piece :: pieces
           | [] => [String c EmptyString]
           end
  end.

(** [s.replaceAll(pattern, replacement)] for a pattern of one code unit. *)
Fixpoint replaceAll (pattern : ascii) (replacement : string) (s : string)
  : string :=
  match s with
  | EmptyString => EmptyString
  | String c s' =>
      if Ascii.eqb c pattern
      then replacement ++ replaceAll pattern replacement s'
      else String c (replaceAll pattern replacement s')
  end.

(** [s.includes(searchString)]. *)
Fixpoint includes (searchString : string) (s : string) : bool :=
  String.prefix searchString s
  || match s with
     | EmptyString => false
     | String _ s' => includes searchString s'
     end.

(** [s.substring(0, finish)]; a negative [finish] is clamped to 0 and one
    past the end to the length. *)
Definition substring0 (finish : Z) (s : string) : string :=
  String.substring 0 (Z.to_nat finish) s.

Definition length (s : string) : Z := Z.of_nat (String.length s).

End JSString.

(* ===================================================================== *)
(** ** JavaScript numbers *)
(* ===================================================================== *)

(** Numbers are binary64 floats: [spec_float] at precision 53 and maximal
    exponent 1024, with the operations of the standard library's
    executable IEEE 754 specification. *)
Module JSNumber.

Definition prec : Z := 53.
Definition emax : Z := 1024.

Definition number : Type := spec_float.

Definition NaN : number := S754_nan.
Definition zero : number := S754_zero false.

(** [x / y] *)
Definition div (x y : number) : number := SFdiv prec emax x y.

(** [Math.abs(x)] *)
Definition abs (x : number) : number := SFabs x.

(** [x === y] on numbers. *)
Definition strictEquals (x y : number) : bool := SFeqb x y.

Definition isFinite (x : number) : bool :=
  match x with
  | S754_zero _ | S754_finite _ _ _ => true
  | _ => false
  end.

Definition isNegative (x : number) : bool :=
  match x with
  | S754_finite s _ _ | S754_infinity s => s
  | _ => false
  end.

(** The real number a finite float stands for, without its sign. *)
Definition magnitude (x : number) : Q :=
  match x with
  | S754_finite _ m e => (inject_Z (Zpos m) * Qpower 2 e)%Q
  | _ => 0%Q
  end.

(** The float nearest to a non-negative rational (ties to even), with
    the given sign: the correctly rounded quotient of numerator and
    denominator. *)
Definition ofQ (negative : bool) (q : Q) : number :=
  match Qnum q with
  | Zpos n =>
      SFdiv prec emax (S754_finite negative n 0)
            (S754_finite false (Qden q) 0)
  | _ => S754_zero negative
  end.

(** *** StringToNumber: [Number(s)] on a string *)

Definition isStrWhiteSpaceChar (c : ascii) : bool :=
  let n := N_of_ascii c in
  ((9 <=? n) && (n <=? 13) || (n =? 32) || (n =? 160))%N.

Fixpoint dropWhile {A : Type} (p : A -> bool) (l : list A) : list A :=
  match l with
  | x :: l' => if p x then dropWhile p l' else l
  | [] => []
  end.

Definition trim (l : list ascii) : list ascii :=
  rev (dropWhile isStrWhiteSpaceChar (rev (dropWhile isStrWhiteSpaceChar l))).

Definition digitValue (radix : N) (c : ascii) : option N :=
  let n := N_of_ascii c in
  let v := (if (48 <=? n) && (n <=? 57) then Some (n - 48)
            else if (97 <=? n) && (n <=? 122) then Some (n - 87)
            else if (65 <=? n) && (n <=? 90) then Some (n - 55)
            else None)%N in
  match v with
  | Some d => if (d <? radix)%N then Some d else None
  | None => None
  end.

(** Reads the longest run of digits, continuing the value [acc]; returns
    the value, the number of digits read and what is left. *)
Fixpoint readDigits (radix acc : N) (count : nat) (l : list ascii)
  : N * nat * list ascii :=
  match l with
  | c :: l' =>
      match digitValue radix c with
      | Some d => readDigits radix (acc * radix + d)%N (S count) l'
      | None => (acc, count, l)
      end
  | [] => (acc, count, l)
  end.

Definition isChar (a b : ascii) (c : ascii) : bool :=
  Ascii.eqb c a || Ascii.eqb c b.

(** ExponentPart, which must reach the end of the literal. *)
Definition parseExponent (l : list ascii) : option Z :=
  match l with
  | [] => Some 0
  | c :: l' =>
      if isChar "e" "E" c then
        let '(negative, ds) :=
          match l' with
          | "+"%char :: t => (false, t)
          | "-"%char :: t => (true, t)
          | _ => (false, l')
          end in
        match readDigits 10 0 0 ds with
        | (v, S _, []) => Some (if negative then - Z.of_N v else Z.of_N v)
        | _ => None
        end
      else None
  end.

(** StrUnsignedDecimalLiteral. *)
Definition parseUnsignedDecimal (negative : bool) (l : list ascii) : number :=
  if String.eqb (string_of_list_ascii l) "Infinity"
  then S754_infinity negative
  else
    let '(ip, ni, r1) := readDigits 10 0 0 l in
    let '(mant, nf, r2) :=
      match r1 with
      | "."%char :: t => readDigits 10 ip 0 t
      | _ => (ip, 0%nat, r1)
      end in
    match (ni + nf)%nat with
    | O => NaN
    | S _ =>
        match parseExponent r2 with
        | Some ex =>
            ofQ negative
                (inject_Z (Z.of_N mant) * Qpower 10 (ex - Z.of_nat nf))%Q
        | None => NaN
        end
    end.

(** NonDecimalIntegerLiteral, after its two-character prefix. *)
Definition parseNonDecimal (radix : N) (l : list ascii) : number :=
  match readDigits radix 0 0 l with
  | (v, S _, []) => ofQ false (inject_Z (Z.of_N v))
  | _ => NaN
  end.

Definition StringToNumber (s : string) : number :=
  match trim (list_ascii_of_string s) with
  | [] => zero
  | "+"%char :: t => parseUnsignedDecimal false t
  | "-"%char :: t => parseUnsignedDecimal true t
  | "0"%char :: c :: t =>
      if isChar "x" "X" c then parseNonDecimal 16 t
      else if isChar "o" "O" c then parseNonDecimal 8 t
      else if isChar "b" "B" c then parseNonDecimal 2 t
      else parseUnsignedDecimal false ("0"%char :: c :: t)
  | l => parseUnsignedDecimal false l
  end.

(** *** Number::toString: [String(x)] on a number *)

Definition decimalDigits (n : Z) : string :=
  NilZero.string_of_uint (N.to_uint (Z.to_N n)).

Definition zeros (n : Z) : string :=
  string_of_list_ascii (repeat "0"%char (Z.to_nat n)).

Definition Qltb (a b : Q) : bool := negb (Qle_bool b a).

Fixpoint lowerExponent (fuel : nat) (q : Q) (s : Z) : Z :=
  match fuel with
  | O => s
  | S fuel' =>
      if Qltb q (Qpower 10 (s - 1)) then lowerExponent fuel' q (s - 1) else s
  end.

Fixpoint raiseExponent (fuel : nat) (q : Q) (s : Z) : Z :=
  match fuel with
  | O => s
  | S fuel' =>
      if Qle_bool (Qpower 10 s) q then raiseExponent fuel' q (s + 1) else s
  end.

(** The [s] with [10^(s-1) <= q < 10^s], for [q > 0]; the search starts
    from an estimate taken from the binary logarithms. *)
Definition decimalExponent (q : Q) : Z :=
  let estimate := (Z.log2 (Qnum q) - Z.log2 (Zpos (Qden q))) * 30103 / 100000 in
  raiseExponent 700 q (lowerExponent 700 q estimate).

Definition sameMagnitude (x y : number) : bool :=
  match x, y with
  | S754_finite _ _ _, S754_finite _ _ _ => Qeq_bool (magnitude x) (magnitude y)
  | _, _ => false
  end.

(** The shortest decimal [n * 10^p] that rounds to [x], with [n] of [k]
    digits or more tried in turn; of two candidates the one nearer to
    [x], and the even one when they are equally near. *)
Fixpoint shortestDecimal (fuel : nat) (x : number) (s k : Z) : Z * Z :=
  match fuel with
  | O => (0, 0)
  | S fuel' =>
      let p := s - k in
      let scaled := (magnitude x / Qpower 10 p)%Q in
      let lo := Qfloor scaled in
      let hi := lo + 1 in
      let reads n := sameMagnitude (ofQ false (inject_Z n * Qpower 10 p)%Q) x in
      match (0 <? lo) && reads lo, reads hi with
      | true, true =>
          let below := (scaled - inject_Z lo)%Q in
          let above := (inject_Z hi - scaled)%Q in
          if Qltb below above then (lo, p)
          else if Qltb above below then (hi, p)
          else if Z.even lo then (lo, p) else (hi, p)
      | true, false => (lo, p)
      | false, true => (hi, p)
      | false, false => shortestDecimal fuel' x s (k + 1)
      end
  end.

Fixpoint stripZeros (fuel : nat) (n p : Z) : Z * Z :=
  match fuel with
  | O => (n, p)
  | S fuel' =>
      if (n mod 10 =? 0) && negb (n =? 0) then stripZeros fuel' (n / 10) (p + 1)
      else (n, p)
  end.

Definition takeString (n : Z) (s : string) : string :=
  String.substring 0 (Z.to_nat n) s.
Definition dropString (n : Z) (s : string) : string :=
  String.substring (Z.to_nat n) (String.length s - Z.to_nat n) s.

(** The digits and the decimal exponent laid out as Number::toString
    does for radix 10. *)
Definition layout (digits : string) (n : Z) : string :=
  let k := Z.of_nat (String.length digits) in
  if (k <=? n) && (n <=? 21) then digits ++ zeros (n - k)
  else if (0 <? n) && (n <=? 21) then
    takeString n digits ++ "." ++ dropString n digits
  else if (-6 <? n) && (n <=? 0) then "0." ++ zeros (- n) ++ digits
  else
    let exponent :=
      (if n - 1 <? 0 then "-" else "+") ++ decimalDigits (Z.abs (n - 1)) in
    if k =? 1 then digits ++ "e" ++ exponent
    else takeString 1 digits ++ "." ++ dropString 1 digits ++ "e" ++ exponent.

Definition positiveToString (x : number) : string :=
  let s := decimalExponent (magnitude x) in
  let '(n, p) := shortestDecimal 25 x s 1 in
  let '(n, p) := stripZeros 400 n p in
  let digits := decimalDigits n in
  layout digits (p + Z.of_nat (String.length digits)).

Definition NumberToString (x : number) : string :=
  match x with
  | S754_nan => "NaN"
  | S754_zero _ => "0"
  | S754_infinity negative => (if negative then "-" else "") ++ "Infinity"
  | S754_finite negative m e =>
      (if negative then "-" else "") ++ positiveToString (S754_finite false m e)
  end.

(** *** [x.toFixed(fractionDigits)] *)

(** The integer [n] for which [n / 10^f - q] is nearest to zero, the
    larger one of two. *)
Definition nearestScaled (f : Z) (q : Q) : Z :=
  Qfloor (q * Qpower 10 f + (1 # 2))%Q.

Definition toFixed (fractionDigits : Z) (x : number) : string :=
  if negb (isFinite x) then NumberToString x
  else
    let sign := if isNegative x then "-" else "" in
    let q := magnitude x in
    if Qle_bool (Qpower 10 21) q then sign ++ NumberToString (abs x)
    else
      let m := decimalDigits (nearestScaled fractionDigits q) in
      if fractionDigits =? 0 then sign ++ m
      else
        let k := Z.of_nat (String.length m) in
        let m := if k <=? fractionDigits
                 then zeros (fractionDigits + 1 - k) ++ m else m in
        let k := Z.of_nat (String.length m) in
        sign ++ takeString (k - fractionDigits) m ++ "."
             ++ dropString (k - fractionDigits) m.

End JSNumber.

(* ===================================================================== *)
(** ** JavaScript values and objects *)
(* ===================================================================== *)

Module JSValue.
Import JSNumber.

(** The values the scripts store and pass around. *)
Inductive value : Type :=
| VUndefined
| VNumber (x : number)
| VString (s : string).

(** [Number(v)] *)
Definition Number (v : value) : number :=
  match v with
  | VUndefined => NaN
  | VNumber x => x
  | VString s => StringToNumber s
  end.

(** [String(v)], also the conversion of a template literal and of a
    property key. *)
Definition ToString (v : value) : string :=
  match v with
  | VUndefined => "undefined"
  | VNumber x => NumberToString x
  | VString s => s
  end.

End JSValue.

(** An object used as a map: its own properties in the order
    [Object.keys] lists them, array-index keys first in ascending order,
    then the other keys in the order they were created. *)
Module JSObject.

Definition object (V : Type) : Type := list (string * V).

(** An array index is a canonical numeric string below [2^32 - 1]. *)
Definition arrayIndex (k : string) : option N :=
  match list_ascii_of_string k with
  | [] => None
  | c :: l =>
      if Ascii.eqb c "0" && negb (Nat.eqb (List.length l) 0) then None
      else match JSNumber.readDigits 10 0 0 (c :: l) with
           | (i, _, []) => if (i <? 4294967295)%N then Some i else None
           | _ => None
           end
  end.

Section Properties.
Context {V : Type}.

(** [o[k]] when [k] is an own property. *)
Fixpoint get (k : string) (o : object V) : option V :=
  match o with
  | [] => None
  | (k', v) :: o' => if String.eqb k k' then Some v else get k o'
  end.

Fixpoint update (k : string) (v : V) (o : object V) : object V :=
  match o with
  | [] => []
  | (k', v') :: o' =>
      if String.eqb k k' then (k, v) :: o' else (k', v') :: update k v o'
  end.

Fixpoint insertIndex (i : N) (k : string) (v : V) (o : object V)
  : object V :=
  match o with
  | [] => [(k, v)]
  | (k', v') :: o' =>
      match arrayIndex k' with
      | Some j =>
          if (j <? i)%N then (k', v') :: insertIndex i k v o'
          else (k, v) :: o
      | None => (k, v) :: o
      end
  end.

(** [o[k] = v] *)
Definition set (k : string) (v : V) (o : object V) : object V :=
  match get k o with
  | Some _ => update k v o
  | None =>
      match arrayIndex k with
      | Some i => insertIndex i k v o
      | None => (o ++ [(k, v)])%list
      end
  end.

(** [Object.keys(o)] *)
Definition keys (o : object V) : list string := map fst o.

End Properties.

(** [o[k]] as a value: a missing property reads as [undefined]. *)
Definition read (k : string) (o : object JSValue.value) : JSValue.value :=
  match get k o with
  | Some v => v
  | None => JSValue.VUndefined
  end.

End JSObject.

(* ===================================================================== *)
(** ** The parsed document *)
(* ===================================================================== *)

Module Dom.

#[warnings="-register-all"]
Inductive node : Type :=
| Text (data : string)
| Comment (data : string)
| Element (tagName : string) (classList : list string) (childNodes : list node).

Definition isElement (n : node) : bool :=
  match n with
  | Element _ _ _ => true
  | _ => false
  end.

(** [n.textContent]: the data of a text or comment node; for an element
    the text of its descendants, comments left out. *)
Fixpoint textContent (n : node) : string :=
  match n with
  | Text data => data
  | Comment data => data
  | Element _ _ kids =>
      (fix all (kids : list node) : string :=
         match kids with
         | [] => ""
         | Comment _ :: kids' => all kids'
         | kid :: kids' => textContent kid ++ all kids'
         end) kids
  end.

(** [n.children] *)
Definition children (n : node) : list node :=
  match n with
  | Element _ _ kids => filter isElement kids
  | _ => []
  end.

(** The element descendants of a node in document order. *)
Fixpoint descendants (n : node) : list node :=
  match n with
  | Element _ _ kids =>
      (fix all (kids : list node) : list node :=
         match kids with
         | [] => []
         | kid :: kids' =>
             ((if isElement kid then kid :: descendants kid else [])
                ++ all kids')%list
         end) kids
  | _ => []
  end.

(** The two selector shapes the scripts use: [.name] and a tag name. *)
Inductive selector : Type :=
| ClassSelector (name : string)
| TypeSelector (name : string).

Definition parseSelector (s : string) : selector :=
  match s with
  | String "." name => ClassSelector name
  | _ => TypeSelector s
  end.

Definition matches (sel : selector) (n : node) : bool :=
  match n, sel with
  | Element _ classes _, ClassSelector name => existsb (String.eqb name) classes
  | Element tag _ _, TypeSelector name => String.eqb name tag
  | _, _ => false
  end.

(** [n.querySelectorAll(s)] *)
Definition querySelectorAll (s : string) (n : node) : list node :=
  filter (matches (parseSelector s)) (descendants n).

(** [n.querySelector(s)] *)
Definition querySelector (s : string) (n : node) : option node :=
  hd_error (querySelectorAll s n).

(** [n.querySelector(s)?.nextSibling]: nodes carry no parent link, so the
    first match is located together with the node that follows it among
    its parent's child nodes. *)
Fixpoint querySelectorNextSibling (sel : selector) (n : node) : option (option node) :=
  match n with
  | Element _ _ kids =>
      (fix first (kids : list node) : option (option node) :=
         match kids with
         | [] => None
         | kid :: kids' =>
             if matches sel kid then Some (hd_error kids')
             else match querySelectorNextSibling sel kid with
                  | Some found => Some found
                  | None => first kids'
                  end
         end) kids
  | _ => None
  end.

(** [list[i]] on a node list or an HTML collection. *)
Definition item {A : Type} (i : Z) (l : list A) : option A :=
  if i <? 0 then None else nth_error l (Z.to_nat i).

End Dom.

(* ===================================================================== *)
(** ** utils.js *)
(* ===================================================================== *)

Module Utils.
Import JSString JSNumber JSValue JSObject.

(** The optional configuration object of [prune]; an option that is not
    given is [None]. *)
Record options : Type := { keepSpaces : option bool; asNumber : option bool }.

(** [{}], the default of the second parameter. *)
Definition noOptions : options := {| keepSpaces := None; asNumber := None |}.

Definition truthy (b : option bool) : bool :=
  match b with
  | Some true => true
  | _ => false
  end.

Definition isFalse (b : option bool) : bool :=
  match b with
  | Some false => true
  | _ => false
  end.

(** The characters [prune] removes. *)
Definition badCharacters : list ascii := [DEGREE].

(** The first non-empty piece of [text.split(" ")], or [text] itself. *)
Definition firstWord (text : string) : string :=
  let strings := split SPACE text in
  match find (fun candidate => negb (JSString.length candidate =? 0)) strings with
  | Some candidate => candidate
  | None => text
  end.

Definition stripBadCharacters (text : string) : string :=
  fold_left (fun text badCharacter => replaceAll badCharacter "" text)
            badCharacters text.

(** [prune(string, opts)]; the argument is [None] when the caller's
    optional chain produced [undefined]. *)
Definition prune (text : option string) (opts : options) : value :=
  match text with
  | None => VUndefined
  | Some text =>
      let text := if negb (truthy (keepSpaces opts)) then firstWord text else text in
      let text := stripBadCharacters text in
      if isFalse (asNumber opts) then VString text
      else VNumber (StringToNumber text)
  end.

Definition INDENT : string := "  ".
Definition DOUBLE_INDENT : string := INDENT ++ INDENT.

(** The inner [forEach]: one line per attribute, a comma after all but
    the last. *)
Definition prettifyStats (stats : object value) (result : string) : string :=
  let numStats := Z.of_nat (List.length (keys stats)) in
  fst (fold_left
         (fun '(result, statsSeen) attribute =>
            let statsSeen := statsSeen + 1 in
            let comma := if statsSeen <? numStats then "," else "" in
            (result ++ DOUBLE_INDENT ++ DQUOTE ++ attribute ++ DQUOTE ++ ": "
                    ++ ToString (read attribute stats) ++ comma ++ LF,
             statsSeen))
         (keys stats) (result, 0)).

(** [prettifySymData(symData)], on the object with each weapon's record
    in place of the reference to it. *)
Definition prettifySymData (symData : object (object value)) : string :=
  let result := "{" ++ LF in
  let result :=
    fold_left
      (fun result weapon =>
         match get weapon symData with
         | Some stats =>
             let result := result ++ INDENT ++ DQUOTE ++ weapon ++ DQUOTE ++ ": {" ++ LF in
             let result := prettifyStats stats result in
             result ++ INDENT ++ "}," ++ LF
         | None => result (* not reached: [weapon] is a key of [symData] *)
         end)
      (keys symData) result in
  substring0 (JSString.length result - 2) result ++ LF ++ "}".

End Utils.

(* ===================================================================== *)
(** ** The entry script *)
(* ===================================================================== *)

Module Main.
Import JSString JSNumber JSValue JSObject Dom Utils.

(** A customising function of the rule list: it receives the property
    and the class name and assigns to [weaponData]. *)
Definition behavior : Type := string -> string -> object value -> object value.

Definition rule : Type := string * string * option behavior.

Definition property (r : rule) : string := fst (fst r).
Definition className (r : rule) : string := snd (fst r).
Definition customBehavior (r : rule) : option behavior := snd r.

Section Weapon.

(** [weapons[weaponIndex]] *)
Variable weapon : node.

Definition getValue (className : string) (opts : options) : value :=
  prune (option_map textContent (querySelector ("." ++ className) weapon)) opts.

Definition getValueOfSibling (className : string) (opts : options) : value :=
  prune (match querySelectorNextSibling (parseSelector ("." ++ className)) weapon with
         | Some (Some sibling) => Some (textContent sibling)
         | _ => None
         end) opts.

Definition getAll (className : string) : list node :=
  querySelectorAll ("." ++ className) weapon.

Definition getFirst (className : string) : option node :=
  item 0 (getAll className).

(** The column [getSpread] reads after its adjustment. *)
Definition adjustedCol (row col : Z) (dynamicCol : bool) : Z :=
  if dynamicCol && negb (Z.rem row 3 =? 1) then col - 1 else col.

(** [getFirst(className)?.querySelectorAll("tr")[row]?.children[col]?.textContent] *)
Definition cellText (className : string) (row col : Z) : option string :=
  match getFirst className with
  | None => None
  | Some table =>
      match item row (querySelectorAll "tr" table) with
      | None => None
      | Some tr => option_map textContent (item col (children tr))
      end
  end.

(** [getSpread(row, col, dynamicCol)].  Every closure it returns is
    called once, so the decrement of the captured [col] happens once. *)
Definition getSpread (row col : Z) (dynamicCol : bool) : behavior :=
  fun property className weaponData =>
    let col := adjustedCol row col dynamicCol in
    set property (prune (cellText className row col) noOptions) weaponData.

(** [getFssm(row, col)] *)
Definition getFssm (row col : Z) : behavior :=
  fun property className weaponData =>
    let weaponData := getSpread row col true property className weaponData in
    let firstSips := Number (read property weaponData) in
    let sips := Number (read "adsStandSpreadInc" weaponData) in
    set property
        (VNumber (Number (if strictEquals sips zero then VNumber sips
                          else VString (toFixed 0 (div firstSips sips)))))
        weaponData.

Definition pelletsBehavior : behavior :=
  fun property className weaponData =>
    let labels := getAll className in
    match find (fun label => includes "pellets" (textContent label)) labels with
    | Some label => set property (prune (Some (textContent label)) noOptions) weaponData
    | None => weaponData
    end.

Definition recoilLeftBehavior : behavior :=
  fun property className weaponData =>
    let number := getValue className noOptions in
    set property (VNumber (abs (Number number))) weaponData.

Definition recoilRightBehavior : behavior :=
  fun property className weaponData =>
    let number := getValueOfSibling className noOptions in
    set property (VNumber (abs (Number number))) weaponData.

Definition recoilFirstShotBehavior : behavior :=
  fun property className weaponData =>
    set property
        (prune (match getFirst className with
                | Some first => option_map textContent (item 1 (children first))
                | None => None
                end) noOptions)
        weaponData.

(** The rule list, in the order of the script. *)
Definition rules : list rule :=
  [ ("ammoCapacity", "lblMag", None);
    ("rateOfFire", "lblRPMValue", None);
    ("pellets", "chartMinMaxLabel", Some pelletsBehavior);
    ("initialVelocity", "lblSpeedValue", None);
    ("dragCoefficient", "lblDragCoe", None);
    ("reloadTime", "lblReloadLeft", None);
    ("reloadTimeEmpty", "lblReloadEmpty", None);
    ("deployTime", "lblDeployTime", None);
    ("verticalRecoil", "recoilInitUpValue", None);
    ("recoilLeft", "recoilHorValue", Some recoilLeftBehavior);
    ("recoilRight", "recoilHorValue", Some recoilRightBehavior);
    ("recoilFirstShotMultiplier", "recoilFirstShot", Some recoilFirstShotBehavior);
    ("recoilDecrease", "recoilDec", None);
    ("dispersion", "hipSpreadValue", None);
    ("adsStandBaseMin", "spreadTable", Some (getSpread 1 1 true));
    ("adsStandBaseMax", "spreadTable", Some (getSpread 1 2 true));
    ("adsCrouchBaseMin", "spreadTable", Some (getSpread 2 1 true));
    ("adsCrouchBaseMax", "spreadTable", Some (getSpread 2 2 true));
    ("adsProneBaseMin", "spreadTable", Some (getSpread 3 1 true));
    ("adsProneBaseMax", "spreadTable", Some (getSpread 3 2 true));
    ("hipStandBaseMin", "spreadTable", Some (getSpread 4 1 true));
    ("hipStandBaseMax", "spreadTable", Some (getSpread 4 2 true));
    ("hipCrouchBaseMin", "spreadTable", Some (getSpread 5 1 true));
    ("hipCrouchBaseMax", "spreadTable", Some (getSpread 5 2 true));
    ("hipProneBaseMin", "spreadTable", Some (getSpread 6 1 true));
    ("hipProneBaseMax", "spreadTable", Some (getSpread 6 2 true));
    ("adsStandSpreadInc", "spreadIncDecTable", Some (getSpread 2 1 false));
    ("hipStandSpreadInc", "spreadIncDecTable", Some (getSpread 2 2 false));
    ("adsStandFirstSpreadMul", "spreadIncDecTable", Some (getFssm 1 1));
    ("hipStandFirstSpreadMul", "spreadIncDecTable", Some (getFssm 1 2));
    ("adsStandSpreadDec", "spreadIncDecTable", Some (getSpread 3 1 false));
    ("hipStandSpreadDec", "spreadIncDecTable", Some (getSpread 3 2 false)) ].

(** The body of the [forEach] over the rule list. *)
Definition applyRule (weaponData : object value) (r : rule) : object value :=
  match customBehavior r with
  | Some custom => custom (property r) (className r) weaponData
  | None =>
      match getValue (className r) noOptions with
      | VUndefined => weaponData
      | value => set (property r) value weaponData
      end
  end.

(** [weaponData] once the whole rule list has run on a record. *)
Definition extract (weaponData : object value) : object value :=
  fold_left applyRule rules weaponData.

(** The key under which the weapon is filed. *)
Definition weaponName : value :=
  getValue "lblWeaponNameValue" {| keepSpaces := Some true; asNumber := Some false |}.

End Weapon.

(** The script's state: the records allocated so far, the own properties
    of [symData], which hold references to them, and the prototype of
    [symData]: [None] for [Object.prototype], which [{}] starts with, and
    the reference of a record once the [__proto__] setter has run. *)
Record store : Type :=
  { heap : list (object value); symData : object nat; prototype : option nat }.

Definition emptyStore : store := {| heap := []; symData := []; prototype := None |}.

(** [symData[key] = weaponData].  An own property is overwritten.
    Without one the prototype chain decides: it is a record of the script
    or nothing, then [Object.prototype], and holds writable data
    properties and one accessor, [__proto__].  For [__proto__] the
    inherited setter runs: it makes [weaponData] the prototype of
    [symData] and adds no property.  Every other key becomes a new own
    property. *)
Definition assign (key : string) (weaponData : nat) (st : store) : store :=
  match get key (symData st) with
  | Some _ =>
      {| heap := heap st;
         symData := set key weaponData (symData st);
         prototype := prototype st |}
  | None =>
      if String.eqb key "__proto__"
      then {| heap := heap st; symData := symData st; prototype := Some weaponData |}
      else {| heap := heap st;
              symData := set key weaponData (symData st);
              prototype := prototype st |}
  end.

Fixpoint mutate (ref : nat) (f : object value -> object value)
         (h : list (object value)) : list (object value) :=
  match h, ref with
  | [], _ => []
  | o :: h', O => f o :: h'
  | o :: h', S ref' => o :: mutate ref' f h'
  end.

(** The body of the loop over the weapons: [weaponData] is created and
    assigned to [symData] first, and filled in afterwards. *)
Definition processWeapon (st : store) (weapon : node) : store :=
  let weaponData := List.length (heap st) in
  let st := {| heap := (heap st ++ [[]])%list;
               symData := symData st;
               prototype := prototype st |} in
  let st := assign (ToString (weaponName weapon)) weaponData st in
  fold_left
    (fun st r =>
       {| heap := mutate weaponData (fun o => applyRule weapon o r) (heap st);
          symData := symData st;
          prototype := prototype st |})
    (rules weapon) st.

(** The two loops, over the weapon classes and over their weapons. *)
Definition scrape (document : node) : store :=
  fold_left
    (fun st weaponClass => fold_left processWeapon (children weaponClass) st)
    (querySelectorAll ".sortableTable" document) emptyStore.

(** [symData] as the serialisers see it: its own properties. *)
Definition resolve (st : store) : object (object value) :=
  map (fun '(name, ref) => (name, nth ref (heap st) [])) (symData st).

(** The content written to the pretty file. *)
Definition prettyOutput (document : node) : string :=
  prettifySymData (resolve (scrape document)).

End Main.

(* ===================================================================== *)
(** ** The earlier entry script *)
(* ===================================================================== *)

(** The earlier script has its own [prune], which never converts to a
    number, and spells the two first-spread-multiplier rules out. *)
Module Legacy.
Import JSString JSNumber JSValue JSObject Dom.

Definition prune (text : option string) (keepSpaces : option bool) : value :=
  match text with
  | None => VUndefined
  | Some text =>
      let text := if negb (Utils.truthy keepSpaces) then Utils.firstWord text else text in
      VString (Utils.stripBadCharacters text)
  end.

Section Weapon.

(** [weapons[weaponIndex]]; the script calls the record [weapon]. *)
Variable element : node.

Definition getAll (className : string) : list node :=
  querySelectorAll ("." ++ className) element.

Definition getFirst (className : string) : option node :=
  item 0 (getAll className).

Definition cellText (className : string) (row col : Z) : option string :=
  match getFirst className with
  | None => None
  | Some table =>
      match item row (querySelectorAll "tr" table) with
      | None => None
      | Some tr => option_map textContent (item col (children tr))
      end
  end.

Definition getSpread (row col : Z) (dynamicCol : bool) : Main.behavior :=
  fun property className weapon =>
    let col := if dynamicCol && negb (Z.rem row 3 =? 1) then col - 1 else col in
    set property (prune (cellText className row col) None) weapon.

Definition firstSpreadMul (sips firstSips : number) : value :=
  if strictEquals sips zero then VNumber sips
  else VString (toFixed 0 (div firstSips sips)).

Definition adsStandFirstSpreadMul : Main.behavior :=
  fun property className weapon =>
    let weapon := getSpread 1 1 true property className weapon in
    let firstSips := Number (read property weapon) in
    let sips := Number (read "adsStandSpreadInc" weapon) in
    set property (firstSpreadMul sips firstSips) weapon.

Definition hipStandFirstSpreadMul : Main.behavior :=
  fun property className weapon =>
    let weapon := getSpread 1 2 true property className weapon in
    let firstSips := Number (read property weapon) in
    let sips := Number (read "hipStandSpreadInc" weapon) in
    set property (firstSpreadMul sips firstSips) weapon.

(** The four rules on the increase/decrease table up to the second
    multiplier, in the order of the script. *)
Definition spreadIncRules : list Main.rule :=
  [ ("adsStandSpreadInc", "spreadIncDecTable", Some (getSpread 2 1 false));
    ("hipStandSpreadInc", "spreadIncDecTable", Some (getSpread 2 2 false));
    ("adsStandFirstSpreadMul", "spreadIncDecTable", Some adsStandFirstSpreadMul);
    ("hipStandFirstSpreadMul", "spreadIncDecTable", Some hipStandFirstSpreadMul) ].

End Weapon.

End Legacy.

(* ===================================================================== *)
(** ** Vocabulary of the statements *)
(* ===================================================================== *)

Module Spec.
Import JSString.

(** A string of [n] spaces. *)
Fixpoint spaces (n : nat) : string :=
  match n with
  | O => ""
  | S n' => String SPACE (spaces n')
  end.

Definition noSpace (s : string) : Prop :=
  forall c, In c (list_ascii_of_string s) -> c <> SPACE.

(** [token] is the first non-empty piece of [s] between spaces: spaces
    only before it, and the end of [s] or a space right after it. *)
Definition FirstToken (s token : string) : Prop :=
  token <> "" /\ noSpace token /\
  exists n rest,
    s = spaces n ++ token ++ rest /\
    (rest = "" \/ exists rest', rest = String SPACE rest').

(** [label] is the first node of [labels] whose text contains
    [needle]. *)
Definition FirstContaining (needle : string) (labels : list Dom.node)
           (label : Dom.node) : Prop :=
  exists before after,
    labels = (before ++ label :: after)%list /\
    Forall (fun l => includes needle (Dom.textContent l) = false) before /\
    includes needle (Dom.textContent label) = true.

End Spec.

(* ===================================================================== *)
(** ** Sample weapon blocks *)
(* ===================================================================== *)

Module Samples.
Import Dom.

Definition td (text : string) : node := Element "td" [] [Text text].
Definition tr (cells : list node) : node := Element "tr" [] cells.
Definition labelled (class text : string) : node := Element "span" [class] [Text text].

(** A weapon block with no sub-element at all. *)
Definition bareWeapon : node := Element "div" [] [].

(** The increase/decrease table: a header row, the first-shot row, the
    increase row and the decrease row, each with a leading label cell. *)
Definition spreadIncDecTable (firstAds firstHip incAds incHip : string) : node :=
  Element "table" ["spreadIncDecTable"]
    [Element "tbody" []
       [tr [td ""; td "ADS"; td "HIP"];
        tr [td "First"; td firstAds; td firstHip];
        tr [td "Inc"; td incAds; td incHip];
        tr [td "Dec"; td "5"; td "7"]]].

(** A shotgun whose two increase cells differ. *)
Definition shotgun : node :=
  Element "div" ["weapon"]
    [labelled "lblWeaponNameValue" "12g Automatic";
     labelled "lblMag" "5";
     labelled "chartMinMaxLabel" "33 max";
     labelled "chartMinMaxLabel" "12 pellets";
     spreadIncDecTable "6" "8" "2" "4"].

(** A weapon whose aimed spread increase is zero. *)
Definition steadyRifle : node :=
  Element "div" ["weapon"]
    [labelled "lblWeaponNameValue" "Test Rifle";
     spreadIncDecTable "6" "8" "0" "4"].

(** A weapon whose aimed first-shot spread is 7 and increase 2. *)
Definition looseRifle : node :=
  Element "div" ["weapon"]
    [labelled "lblWeaponNameValue" "Loose Rifle";
     spreadIncDecTable "7" "8" "2" "4"].

(** A weapon whose name is the name of the prototype accessor. *)
Definition protoRifle : node :=
  Element "div" ["weapon"]
    [labelled "lblWeaponNameValue" "__proto__";
     labelled "lblMag" "30"].

End Samples.

(* ===================================================================== *)
(** ** The earlier entry script: the whole rule list *)
(* ===================================================================== *)

Module LegacyScript.
Import JSString JSNumber JSValue JSObject Dom.

Section Weapon.

(** [weapons[weaponIndex]]; the script calls the record [weapon]. *)
Variable element : node.

Definition getText (className : string) (keepSpaces : option bool) : value :=
  Legacy.prune (option_map textContent (querySelector ("." ++ className) element))
               keepSpaces.

Definition pelletsBehavior : Main.behavior :=
  fun property className weapon =>
    let labels := Legacy.getAll element className in
    match find (fun label => includes "pellets" (textContent label)) labels with
    | Some label => set property (Legacy.prune (Some (textContent label)) None) weapon
    | None => weapon
    end.

(** [String(Math.abs(Number(number)))] *)
Definition horizontalRecoilBehavior : Main.behavior :=
  fun property className weapon =>
    let number := getText className None in
    set property (VString (ToString (VNumber (abs (Number number))))) weapon.

Definition recoilFirstShotBehavior : Main.behavior :=
  fun property className weapon =>
    set property
        (Legacy.prune (match Legacy.getFirst element className with
                       | Some first => option_map textContent (item 1 (children first))
                       | None => None
                       end) None)
        weapon.

(** The rule list, in the order of the script. *)
Definition rules : list Main.rule :=
  [ ("ammoCapacity", "lblMag", None);
    ("rateOfFire", "lblRPMValue", None);
    ("pellets", "chartMinMaxLabel", Some pelletsBehavior);
    ("initialVelocity", "lblSpeedValue", None);
    ("dragCoefficient", "lblDragCoe", None);
    ("reloadTime", "lblReloadLeft", None);
    ("reloadTimeEmpty", "lblReloadEmpty", None);
    ("deployTime", "lblDeployTime", None);
    ("verticalRecoil", "recoilInitUpValue", None);
    ("horizontalRecoil", "recoilHorValue", Some horizontalRecoilBehavior);
    ("recoilFirstShotMultiplier", "recoilFirstShot", Some recoilFirstShotBehavior);
    ("recoilDecrease", "recoilDec", None);
    ("dispersion", "hipSpreadValue", None);
    ("adsStandBaseMin", "spreadTable", Some (Legacy.getSpread element 1 1 true));
    ("adsStandBaseMax", "spreadTable", Some (Legacy.getSpread element 1 2 true));
    ("adsCrouchBaseMin", "spreadTable", Some (Legacy.getSpread element 2 1 true));
    ("adsCrouchBaseMax", "spreadTable", Some (Legacy.getSpread element 2 2 true));
    ("adsProneBaseMin", "spreadTable", Some (Legacy.getSpread element 3 1 true));
    ("adsProneBaseMax", "spreadTable", Some (Legacy.getSpread element 3 2 true));
    ("hipStandBaseMin", "spreadTable", Some (Legacy.getSpread element 4 1 true));
    ("hipStandBaseMax", "spreadTable", Some (Legacy.getSpread element 4 2 true));
    ("hipCrouchBaseMin", "spreadTable", Some (Legacy.getSpread element 5 1 true));
    ("hipCrouchBaseMax", "spreadTable", Some (Legacy.getSpread element 5 2 true));
    ("hipProneBaseMin", "spreadTable", Some (Legacy.getSpread element 6 1 true));
    ("hipProneBaseMax", "spreadTable", Some (Legacy.getSpread element 6 2 true));
    ("adsStandSpreadInc", "spreadIncDecTable", Some (Legacy.getSpread element 2 1 false));
    ("hipStandSpreadInc", "spreadIncDecTable", Some (Legacy.getSpread element 2 2 false));
    ("adsStandFirstSpreadMul", "spreadIncDecTable", Some (Legacy.adsStandFirstSpreadMul element));
    ("hipStandFirstSpreadMul", "spreadIncDecTable", Some (Legacy.hipStandFirstSpreadMul element));
    ("adsStandSpreadDec", "spreadIncDecTable", Some (Legacy.getSpread element 3 1 false));
    ("hipStandSpreadDec", "spreadIncDecTable", Some (Legacy.getSpread element 3 2 false)) ].

(** The body of the [forEach] over the rule list. *)
Definition applyRule (weapon : object value) (r : Main.rule) : object value :=
  match Main.customBehavior r with
  | Some custom => custom (Main.property r) (Main.className r) weapon
  | None =>
      match getText (Main.className r) None with
      | VUndefined => weapon
      | value => set (Main.property r) value weapon
      end
  end.

(** [weapon] once the whole rule list has run on a record. *)
Definition extract (weapon : object value) : object value :=
  fold_left applyRule rules weapon.

End Weapon.

End LegacyScript.

(* ===================================================================== *)
(** ** Vocabulary for the whole script *)
(* ===================================================================== *)

Module Script.
Import JSString JSValue JSObject Dom Utils Main.

(** The weapon blocks of a document in the order the two loops visit
    them. *)
Definition weapons (document : node) : list node :=
  flat_map children (querySelectorAll ".sortableTable" document).

(** The key under which a weapon block is filed. *)
Definition nameKey (w : node) : string := ToString (weaponName w).

(** One attribute line without its end: indentation, quoted name, colon
    and the value as the template literal writes it. *)
Definition attributeLine (attribute : string * value) : string :=
  DOUBLE_INDENT ++ DQUOTE ++ fst attribute ++ DQUOTE ++ ": " ++ ToString (snd attribute).

(** The attribute lines, a comma between two of them and a line feed
    after each. *)
Fixpoint attributeLines (stats : list (string * value)) : string :=
  match stats with
  | [] => ""
  | attribute :: rest =>
      match rest with
      | [] => attributeLine attribute ++ LF
      | _ :: _ => attributeLine attribute ++ "," ++ LF ++ attributeLines rest
      end
  end.

(** A weapon's block, from its quoted name to its closing brace. *)
Definition weaponBlock (weapon : string * object value) : string :=
  INDENT ++ DQUOTE ++ fst weapon ++ DQUOTE ++ ": {" ++ LF
         ++ attributeLines (snd weapon) ++ INDENT ++ "}".

(** The blocks, a comma and a line feed between two of them. *)
Fixpoint weaponBlocks (symData : list (string * object value)) : string :=
  match symData with
  | [] => ""
  | weapon :: rest =>
      match rest with
      | [] => weaponBlock weapon
      | _ :: _ => weaponBlock weapon ++ "," ++ LF ++ weaponBlocks rest
      end
  end.

(** What [Number] makes of a stored value, [undefined] left as it is. *)
Definition numeric (v : value) : value :=
  match v with
  | VUndefined => VUndefined
  | _ => VNumber (Number v)
  end.

(** A page of two weapon classes; the last weapon has the name of an
    earlier one. *)
Definition page : node :=
  Element "body" []
    [Element "div" ["sortableTable"] [Samples.shotgun; Samples.steadyRifle];
     Element "p" [] [Text "sidearms"];
     Element "div" ["sortableTable"]
       [Samples.looseRifle;
        Element "div" ["weapon"]
          [Samples.labelled "lblWeaponNameValue" "Test Rifle";
           Samples.labelled "lblMag" "10"]]].

(** A page of one weapon class whose second weapon is named
    [__proto__]. *)
Definition protoPage : node :=
  Element "body" []
    [Element "div" ["sortableTable"] [Samples.looseRifle; Samples.protoRifle]].

(** A page without a weapon class. *)
Definition blankPage : node := Element "body" [] [Element "p" [] [Text "no data"]].

End Script.

(* ===================================================================== *)
(** ** Properties of the runtime model *)
(* ===================================================================== *)

Import JSString JSNumber JSValue JSObject Dom Utils.

Section ObjectFacts.
Context {V : Type}.
Implicit Types (o : object V) (k : string) (v : V).

Lemma get_update_same k v o :
  get k o <> None -> get k (update k v o) = Some v.
Proof.
  induction o as [|[k' v'] o IH]; simpl; [congruence|].
  destruct (String.eqb k k') eqn:E; simpl.
  - now rewrite String.eqb_refl.
  - rewrite E. exact IH.
Qed.

Lemma get_update_other k k' v o :
  k' <> k -> get k' (update k v o) = get k' o.
Proof.
  intros Hne. induction o as [|[k0 v0] o IH]; simpl; [reflexivity|].
  destruct (String.eqb k k0) eqn:E; simpl.
  - apply String.eqb_eq in E. subst k0.
    apply String.eqb_neq in Hne. now rewrite Hne.
  - now rewrite IH.
Qed.

Lemma get_insertIndex_same i k v o :
  get k o = None -> get k (insertIndex i k v o) = Some v.
Proof.
  induction o as [|[k' v'] o IH]; simpl.
  - now rewrite String.eqb_refl.
  - destruct (String.eqb k k') eqn:E; [discriminate|]. intros Hnone.
    destruct (arrayIndex k') as [j|]; [destruct (j <? i)%N|]; simpl;
      rewrite ?E, ?String.eqb_refl; auto.
Qed.

Lemma get_insertIndex_other i k k' v o :
  k' <> k -> get k' (insertIndex i k v o) = get k' o.
Proof.
  intros Hne. apply String.eqb_neq in Hne.
  induction o as [|[k0 v0] o IH]; simpl.
  - now rewrite Hne.
  - destruct (arrayIndex k0) as [j|]; [destruct (j <? i)%N|]; simpl;
      rewrite ?Hne, ?IH; reflexivity.
Qed.

Lemma get_app k o o' :
  get k (o ++ o')%list = match get k o with Some v => Some v | None => get k o' end.
Proof.
  induction o as [|[k0 v0] o IH]; simpl; [reflexivity|].
  now destruct (String.eqb k k0).
Qed.

(** Reading back the property just assigned. *)
Lemma get_set_same k v o : get k (set k v o) = Some v.
Proof.
  unfold set. destruct (get k o) eqn:G.
  - apply get_update_same. congruence.
  - destruct (arrayIndex k).
    + now apply get_insertIndex_same.
    + rewrite get_app, G. simpl. now rewrite String.eqb_refl.
Qed.

(** An assignment leaves every other property as it was. *)
Lemma get_set_other k k' v o : k' <> k -> get k' (set k v o) = get k' o.
Proof.
  intros Hne. unfold set. destruct (get k o).
  - now apply get_update_other.
  - destruct (arrayIndex k).
    + now apply get_insertIndex_other.
    + rewrite get_app. simpl. apply String.eqb_neq in Hne. rewrite Hne.
      now destruct (get k' o).
Qed.

End ObjectFacts.

Lemma read_set_same k v o : read k (set k v o) = v.
Proof. unfold read. now rewrite get_set_same. Qed.

Lemma read_set_other k k' v o : k' <> k -> read k' (set k v o) = read k' o.
Proof. intros. unfold read. now rewrite get_set_other. Qed.

(** *** Strings *)

Lemma append_assoc (a b c : string) : (a ++ b) ++ c = a ++ (b ++ c).
Proof. induction a; simpl; congruence. Qed.

Lemma append_empty_r (a : string) : a ++ "" = a.
Proof. induction a; simpl; congruence. Qed.

Lemma length_append (a b : string) :
  String.length (a ++ b) = (String.length a + String.length b)%nat.
Proof. induction a; simpl; congruence. Qed.

Lemma substring_prefix (a b : string) :
  String.substring 0 (String.length a) (a ++ b) = a.
Proof.
  induction a as [|c a IH]; simpl.
  - now destruct b.
  - now rewrite IH.
Qed.

(** Cutting the last two characters off. *)
Lemma substring0_drop2 (a tail : string) :
  String.length tail = 2%nat ->
  substring0 (JSString.length (a ++ tail) - 2) (a ++ tail) = a.
Proof.
  intros Htail. unfold substring0, JSString.length. rewrite length_append, Htail.
  replace (Z.to_nat (Z.of_nat (String.length a + 2) - 2)) with (String.length a) by lia.
  apply substring_prefix.
Qed.

Lemma split_not_nil sep s : split sep s <> [].
Proof.
  destruct s as [|c s]; simpl; [discriminate|].
  destruct (Ascii.eqb c sep); [discriminate|].
  destruct (split sep s); discriminate.
Qed.

Lemma split_spaces n s :
  split SPACE (Spec.spaces n ++ s) = (repeat "" n ++ split SPACE s)%list.
Proof.
  induction n as [|n IH]; simpl; [reflexivity|].
  now rewrite IH.
Qed.

Lemma split_token token rest :
  Spec.noSpace token ->
  rest = "" \/ (exists rest', rest = String SPACE rest') ->
  exists pieces, split SPACE (token ++ rest) = token :: pieces.
Proof.
  intros Hns Hrest. induction token as [|c token IH]; simpl.
  - destruct Hrest as [->|[rest' ->]]; simpl; eauto.
  - assert (Hc : Ascii.eqb c SPACE = false).
    { apply Ascii.eqb_neq. apply Hns. simpl. now left. }
    rewrite Hc. destruct IH as [pieces IH].
    { intros c' Hin. apply Hns. simpl. now right. }
    rewrite IH. eauto.
Qed.

Lemma find_skip_empty n (l : list string) :
  find (fun candidate => negb (JSString.length candidate =? 0)) (repeat "" n ++ l)%list
  = find (fun candidate => negb (JSString.length candidate =? 0)) l.
Proof. induction n; simpl; auto. Qed.

Lemma firstWord_spaces n : firstWord (Spec.spaces n) = Spec.spaces n.
Proof.
  unfold firstWord.
  replace (Spec.spaces n) with (Spec.spaces n ++ "") at 1 by apply append_empty_r.
  rewrite split_spaces, find_skip_empty. reflexivity.
Qed.

Lemma firstWord_token s token : Spec.FirstToken s token -> firstWord s = token.
Proof.
  intros (Hne & Hns & n & rest & -> & Hrest). unfold firstWord.
  rewrite split_spaces, find_skip_empty.
  destruct (split_token token rest Hns Hrest) as [pieces ->]. simpl.
  destruct token; [congruence|]. reflexivity.
Qed.

Lemma replaceAll_spaces n : replaceAll DEGREE "" (Spec.spaces n) = Spec.spaces n.
Proof. induction n; simpl; congruence. Qed.

Lemma StringToNumber_spaces n : StringToNumber (Spec.spaces n) = zero.
Proof.
  unfold StringToNumber, trim.
  assert (H : dropWhile isStrWhiteSpaceChar (list_ascii_of_string (Spec.spaces n)) = []).
  { induction n; simpl; auto. }
  now rewrite H.
Qed.

(** A string made of spaces only is [spaces] of its length. *)
Lemma only_spaces s :
  (forall c, In c (list_ascii_of_string s) -> c = SPACE) ->
  s = Spec.spaces (String.length s).
Proof.
  induction s as [|c s IH]; simpl; intros H; [reflexivity|].
  rewrite (H c) by now left. f_equal. apply IH. intros; apply H; now right.
Qed.

(* ===================================================================== *)
(** ** The text normaliser *)
(* ===================================================================== *)

(** With [keepSpaces] off and no [asNumber], a string of two spaces comes
    back as a number, not as the string. *)
Lemma prune_spaces_default_is_number :
  prune (Some "  ") {| keepSpaces := Some false; asNumber := None |}
  = VNumber zero /\
  prune (Some "  ") {| keepSpaces := Some false; asNumber := None |}
  <> VString "  ".
Proof. split; [reflexivity | vm_compute; discriminate]. Qed.

(** C5 (amended).  For a string made of spaces only, [prune] with
    [keepSpaces] off returns the string itself when [asNumber] is [false];
    with any other [asNumber] it returns the number that string converts
    to, which is [0]. *)
Theorem prune_only_spaces (s : string) (keep number : option bool) :
  truthy keep = false ->
  (forall c, In c (list_ascii_of_string s) -> c = SPACE) ->
  prune (Some s) {| keepSpaces := keep; asNumber := number |}
  = if isFalse number then VString s else VNumber zero.
Proof.
  intros Hkeep Hs. rewrite (only_spaces s Hs).
  unfold prune. simpl keepSpaces. simpl asNumber. rewrite Hkeep. simpl negb. cbv iota.
  rewrite firstWord_spaces. unfold stripBadCharacters. simpl fold_left.
  rewrite replaceAll_spaces, StringToNumber_spaces. reflexivity.
Qed.

Lemma prune_only_spaces_witness :
  prune (Some "   ") {| keepSpaces := Some false; asNumber := Some false |}
  = VString "   ".
Proof.
  apply (prune_only_spaces "   " (Some false) (Some false)).
  - reflexivity.
  - simpl. intros c [H|[H|[H|[]]]]; now subst.
Defined.

(** With [keepSpaces] off and no [asNumber], the first token comes back
    converted to a number: [NaN] for a word. *)
Lemma prune_token_default_is_number :
  prune (Some "semi auto") {| keepSpaces := Some false; asNumber := None |}
  = VNumber NaN /\
  prune (Some "semi auto") {| keepSpaces := Some false; asNumber := None |}
  <> VString "semi".
Proof. split; [reflexivity | vm_compute; discriminate]. Qed.

(** C6 (amended).  For a string with a first non-empty token between
    spaces, [prune] with [keepSpaces] off returns that token with the
    degree signs removed when [asNumber] is [false]; with any other
    [asNumber] it returns the number that stripped token converts to. *)
Theorem prune_first_token (s token : string) (keep number : option bool) :
  truthy keep = false ->
  Spec.FirstToken s token ->
  prune (Some s) {| keepSpaces := keep; asNumber := number |}
  = if isFalse number then VString (replaceAll DEGREE "" token)
    else VNumber (StringToNumber (replaceAll DEGREE "" token)).
Proof.
  intros Hkeep Htoken.
  unfold prune. simpl keepSpaces. simpl asNumber. rewrite Hkeep. simpl negb. cbv iota.
  rewrite (firstWord_token s token Htoken). reflexivity.
Qed.

Lemma prune_first_token_witness :
  prune (Some ("  12" ++ String DEGREE " pellets left"))
        {| keepSpaces := None; asNumber := Some false |}
  = VString "12".
Proof.
  apply (prune_first_token _ ("12" ++ String DEGREE "") None (Some false)).
  - reflexivity.
  - split; [discriminate|]. split.
    + simpl. intros c [H|[H|[H|[]]]]; subst; discriminate.
    + exists 2%nat, " pellets left". split; [reflexivity|].
      right. now exists "pellets left".
Defined.

(* ===================================================================== *)
(** ** The rule list *)
(* ===================================================================== *)

Import Main.

(** Each rule assigns to no property but its own. *)
Lemma applyRule_other (w : node) (r : rule) (o : object value) (k : string) :
  In r (rules w) -> k <> property r ->
  get k (applyRule w o r) = get k o.
Proof.
  intros Hin Hk. unfold rules in Hin. simpl in Hin.
  repeat (destruct Hin as [<-|Hin];
          [ unfold applyRule; cbn [customBehavior property className fst snd] in *;
            first
              [ destruct (getValue w _ noOptions); rewrite ?get_set_other by exact Hk; reflexivity
              | unfold pelletsBehavior; destruct (find _ _);
                rewrite ?get_set_other by exact Hk; reflexivity
              | unfold getFssm, getSpread, recoilLeftBehavior, recoilRightBehavior,
                  recoilFirstShotBehavior;
                rewrite ?get_set_other by exact Hk; reflexivity ]
          | ]).
  destruct Hin.
Qed.

Lemma fold_applyRule_other (w : node) (rs : list rule) (o : object value) (k : string) :
  (forall r, In r rs -> In r (rules w)) ->
  (forall r, In r rs -> property r <> k) ->
  get k (fold_left (applyRule w) rs o) = get k o.
Proof.
  revert o. induction rs as [|r rs IH]; intros o Hin Hk; simpl; [reflexivity|].
  rewrite IH.
  - apply applyRule_other; [apply Hin; now left|].
    intros E. apply (Hk r); [now left|now symmetry].
  - intros; apply Hin; now right.
  - intros; apply Hk; now right.
Qed.

Lemma extract_through (w : node) (before : list rule) (r : rule) (after : list rule)
      (o : object value) :
  rules w = (before ++ r :: after)%list ->
  extract w o
  = fold_left (applyRule w) after (applyRule w (fold_left (applyRule w) before o) r).
Proof. intros E. unfold extract. rewrite E, fold_left_app. reflexivity. Qed.

(** The properties of the rule list are pairwise different. *)
Lemma rules_properties_NoDup (w : node) : NoDup (map property (rules w)).
Proof.
  unfold rules. cbn [map property fst].
  repeat (constructor; [simpl; intuition discriminate|]). constructor.
Qed.

(** The record when a rule of the list runs, and what the rest of the
    list leaves of that rule's property. *)
Lemma extract_at (w : node) (r : rule) :
  In r (rules w) ->
  exists o,
    get (property r) o = None /\
    get (property r) (extract w []) = get (property r) (applyRule w o r).
Proof.
  intros Hin. destruct (in_split _ _ Hin) as (before & after & E).
  pose proof (rules_properties_NoDup w) as ND.
  rewrite E, map_app in ND. simpl in ND. apply NoDup_remove_2 in ND.
  assert (Hb : forall r', In r' before -> property r' <> property r).
  { intros r' H' E'. apply ND, in_or_app. left. rewrite <- E'. now apply in_map. }
  assert (Ha : forall r', In r' after -> property r' <> property r).
  { intros r' H' E'. apply ND, in_or_app. right. rewrite <- E'. now apply in_map. }
  exists (fold_left (applyRule w) before []). split.
  - rewrite fold_applyRule_other; auto.
    intros r' H'. rewrite E. apply in_or_app. now left.
  - rewrite (extract_through w before r after [] E).
    apply fold_applyRule_other; auto.
    intros r' H'. rewrite E. apply in_or_app. right. now right.
Qed.

Lemma querySelector_none_all (s : string) (w : node) :
  querySelector s w = None -> querySelectorAll s w = [].
Proof. unfold querySelector. now destruct (querySelectorAll s w). Qed.

(** A weapon block without a spread table still gets the spread keys,
    holding [undefined], and the recoil keys, holding [NaN]. *)
Lemma bare_weapon_keeps_custom_keys :
  querySelector ".spreadTable" Samples.bareWeapon = None /\
  In ("adsStandBaseMin", "spreadTable", Some (getSpread Samples.bareWeapon 1 1 true))
     (rules Samples.bareWeapon) /\
  get "adsStandBaseMin" (extract Samples.bareWeapon []) = Some VUndefined /\
  get "recoilLeft" (extract Samples.bareWeapon []) = Some (VNumber NaN).
Proof.
  split; [reflexivity|]. split; [|split; reflexivity].
  unfold rules. do 14 right. now left.
Qed.

(** C2 (amended).  When no element of the weapon block carries a rule's
    class, a rule without a custom function leaves its key out of the
    record, and so does the pellets rule. *)
Theorem absent_target_key (w : node) (r : rule) :
  In r (rules w) ->
  querySelector ("." ++ className r) w = None ->
  customBehavior r = None \/ property r = "pellets" ->
  get (property r) (extract w []) = None.
Proof.
  intros Hin Habsent Hkind.
  destruct (extract_at w r Hin) as (o & Ho & ->).
  assert (Hsame : applyRule w o r = o); [|now rewrite Hsame].
  unfold applyRule. destruct (customBehavior r) as [custom|] eqn:Ecustom.
  - destruct Hkind as [|Hpellets]; [discriminate|].
    unfold rules in Hin. simpl in Hin.
    repeat (destruct Hin as [<-|Hin];
            [ cbn [customBehavior property className fst snd] in *;
              try discriminate Hpellets; try discriminate Ecustom | ]);
      [|destruct Hin].
    injection Ecustom as <-. unfold pelletsBehavior, getAll.
    now rewrite (querySelector_none_all _ _ Habsent).
  - unfold getValue. now rewrite Habsent.
Qed.

(** The other custom functions assign their key whatever the lookup
    gives. *)
Lemma custom_rule_assigns (w : node) (r : rule) :
  In r (rules w) ->
  customBehavior r <> None -> property r <> "pellets" ->
  get (property r) (extract w []) <> None.
Proof.
  intros Hin Hcustom Hpellets.
  destruct (extract_at w r Hin) as (o & Ho & ->).
  unfold rules in Hin. simpl in Hin.
  repeat (destruct Hin as [<-|Hin];
          [ unfold applyRule; cbn [customBehavior property className fst snd] in *;
            try (exfalso; apply Hcustom; reflexivity);
            try (exfalso; apply Hpellets; reflexivity);
            try (unfold getFssm, getSpread, recoilLeftBehavior, recoilRightBehavior,
                   recoilFirstShotBehavior;
                 rewrite get_set_same; discriminate) | ]).
  destruct Hin.
Qed.

Lemma absent_target_key_witness :
  get "ammoCapacity" (extract Samples.bareWeapon []) = None.
Proof.
  apply (absent_target_key Samples.bareWeapon ("ammoCapacity", "lblMag", None)).
  - unfold rules. now left.
  - reflexivity.
  - left. reflexivity.
Defined.

(* ===================================================================== *)
(** ** The pellets rule *)
(* ===================================================================== *)

Lemma pellets_in_rules (w : node) :
  In ("pellets", "chartMinMaxLabel", Some (pelletsBehavior w)) (rules w).
Proof. unfold rules. right. right. now left. Qed.

Lemma find_first_containing (needle : string) (labels : list node) (label : node) :
  Spec.FirstContaining needle labels label ->
  find (fun l => includes needle (textContent l)) labels = Some label.
Proof.
  intros (before & after & -> & Hbefore & Hlabel).
  induction Hbefore as [|l before Hl _ IH]; simpl.
  - now rewrite Hlabel.
  - now rewrite Hl.
Qed.

Lemma find_none_containing (needle : string) (labels : list node) :
  Forall (fun l => includes needle (textContent l) = false) labels ->
  find (fun l => includes needle (textContent l)) labels = None.
Proof.
  induction 1 as [|l labels Hl _ IH]; simpl; [reflexivity|]. now rewrite Hl.
Qed.

(** The shotgun's label "12 pellets" is stored as the number 12, not as
    the text "12". *)
Lemma shotgun_pellets_is_number :
  Spec.FirstContaining "pellets" (getAll Samples.shotgun "chartMinMaxLabel")
                       (Samples.labelled "chartMinMaxLabel" "12 pellets") /\
  get "pellets" (extract Samples.shotgun []) = Some (VNumber (StringToNumber "12")) /\
  get "pellets" (extract Samples.shotgun []) <> Some (VString "12").
Proof.
  split; [|split; [reflexivity | vm_compute; discriminate]].
  exists [Samples.labelled "chartMinMaxLabel" "33 max"], [].
  split; [reflexivity|]. split; [|reflexivity].
  constructor; [reflexivity|constructor].
Qed.

(** C7 (amended).  The pellets key is set from the first element of class
    [chartMinMaxLabel] whose text contains "pellets": it holds what
    [prune] returns for that text under its default options, which is the
    number the first word converts to.  When no such element exists the
    key is left out. *)
Theorem pellets_value (w : node) :
  (forall label,
      Spec.FirstContaining "pellets" (getAll w "chartMinMaxLabel") label ->
      get "pellets" (extract w [])
      = Some (VNumber (StringToNumber
                         (stripBadCharacters (firstWord (textContent label)))))) /\
  (Forall (fun l => includes "pellets" (textContent l) = false)
          (getAll w "chartMinMaxLabel") ->
   get "pellets" (extract w []) = None).
Proof.
  destruct (extract_at w _ (pellets_in_rules w)) as (o & Ho & E).
  cbn [property fst] in *. rewrite E.
  unfold applyRule. cbn [customBehavior property className fst snd].
  unfold pelletsBehavior. split.
  - intros label Hfirst. rewrite (find_first_containing _ _ _ Hfirst).
    now rewrite get_set_same.
  - intros Hnone. now rewrite (find_none_containing _ _ Hnone).
Qed.

Lemma pellets_value_witness :
  get "pellets" (extract Samples.shotgun [])
  = Some (VNumber (StringToNumber "12")) /\
  get "pellets" (extract Samples.steadyRifle []) = None.
Proof.
  split.
  - apply (proj1 (pellets_value Samples.shotgun)
                 (Samples.labelled "chartMinMaxLabel" "12 pellets")).
    exists [Samples.labelled "chartMinMaxLabel" "33 max"], [].
    split; [reflexivity|]. split; [|reflexivity].
    constructor; [reflexivity|constructor].
  - apply (proj2 (pellets_value Samples.steadyRifle)). constructor.
Defined.

(* ===================================================================== *)
(** ** The spread tables *)
(* ===================================================================== *)

(** C4.  With the column adjustment on, [getSpread] reads the requested
    column in a row whose number leaves remainder 1 modulo 3 and the
    column before it in every other row: for a table that has the row,
    the property receives the pruned text of that cell.  Row 1, column 2
    reads column 2; row 2, column 2 reads column 1.  With the adjustment
    off the requested column is read. *)
Theorem getSpread_column (w : node) (row col : Z) (p c : string)
        (o : object value) (table line : node) :
  getFirst w c = Some table ->
  item row (querySelectorAll "tr" table) = Some line ->
  get p (getSpread w row col true p c o)
  = Some (prune (option_map textContent
                            (item (if Z.rem row 3 =? 1 then col else col - 1)
                                  (children line)))
                noOptions) /\
  get p (getSpread w row col false p c o)
  = Some (prune (option_map textContent (item col (children line))) noOptions) /\
  adjustedCol 1 2 true = 2 /\
  adjustedCol 2 2 true = 1.
Proof.
  intros Htable Hrow. unfold getSpread, cellText, adjustedCol.
  rewrite !get_set_same, Htable, Hrow. simpl andb.
  destruct (Z.rem row 3 =? 1); simpl; auto.
Qed.

Lemma getSpread_column_witness :
  get "hipStandSpreadInc"
      (getSpread Samples.shotgun 2 2 true "hipStandSpreadInc" "spreadIncDecTable" [])
  = Some (VNumber (StringToNumber "2")).
Proof.
  apply (proj1 (getSpread_column Samples.shotgun 2 2 "hipStandSpreadInc"
                                 "spreadIncDecTable" []
                                 (Samples.spreadIncDecTable "6" "8" "2" "4")
                                 (Samples.tr [Samples.td "Inc"; Samples.td "2"; Samples.td "4"])
                                 eq_refl eq_refl)).
Defined.

(* ===================================================================== *)
(** ** Rounding with [toFixed(0)] *)
(* ===================================================================== *)

Lemma digit_facts (c : ascii) :
  digitValue 10 c <> None ->
  isStrWhiteSpaceChar c = false /\
  isChar "x" "X" c = false /\ isChar "o" "O" c = false /\ isChar "b" "B" c = false /\
  Ascii.eqb c "I" = false.
Proof.
  destruct c as [[|] [|] [|] [|] [|] [|] [|] [|]]; intros H;
    try (exfalso; apply H; reflexivity); repeat split; reflexivity.
Qed.

Ltac read_digit :=
  match goal with
  | |- context [digitValue 10 ?c] =>
      let v := eval vm_compute in (digitValue 10 c) in
      change (digitValue 10 c) with v; cbv beta iota
  end.

Lemma readDigits_of_uint_acc (d : Decimal.uint) (p : positive) (count : nat) :
  readDigits 10 (Npos p) count (list_ascii_of_string (NilEmpty.string_of_uint d))
  = (Npos (Pos.of_uint_acc d p), (count + Decimal.nb_digits d)%nat, []).
Proof.
  revert p count.
  induction d; intros p count;
    cbn [NilEmpty.string_of_uint list_ascii_of_string readDigits
         Decimal.nb_digits Pos.of_uint_acc];
    try (rewrite Nat.add_0_r; reflexivity);
    read_digit;
    match goal with
    | |- readDigits 10 ?acc _ _ = (Npos (Pos.of_uint_acc _ ?q), _, _) =>
        replace acc with (Npos q) by lia
    end;
    rewrite IHd; f_equal; f_equal; lia.
Qed.

Lemma readDigits_of_uint (d : Decimal.uint) (count : nat) :
  readDigits 10 0 count (list_ascii_of_string (NilEmpty.string_of_uint d))
  = (N.of_uint d, (count + Decimal.nb_digits d)%nat, []).
Proof.
  revert count. unfold N.of_uint.
  induction d; intros count;
    cbn [NilEmpty.string_of_uint list_ascii_of_string readDigits
         Decimal.nb_digits Pos.of_uint];
    try (rewrite Nat.add_0_r; reflexivity);
    read_digit; cbn [N.mul N.add];
    rewrite ?IHd, ?readDigits_of_uint_acc; f_equal; f_equal; lia.
Qed.

Lemma digits_of_uint (d : Decimal.uint) :
  Forall (fun c => digitValue 10 c <> None)
         (list_ascii_of_string (NilEmpty.string_of_uint d)).
Proof.
  induction d; cbn [NilEmpty.string_of_uint list_ascii_of_string];
    constructor; auto; vm_compute; discriminate.
Qed.

Lemma decimalDigits_uint (n : Z) :
  exists d, d <> Decimal.Nil /\ N.of_uint d = Z.to_N n /\
            decimalDigits n = NilEmpty.string_of_uint d.
Proof.
  exists (N.to_uint (Z.to_N n)). split; [|split].
  - destruct (Z.to_N n); simpl; [discriminate|apply Unsigned.to_uint_nonnil].
  - apply DecimalN.Unsigned.of_to.
  - unfold decimalDigits, NilZero.string_of_uint.
    destruct (N.to_uint (Z.to_N n)) eqn:E; try reflexivity.
    destruct (Z.to_N n); simpl in E; [discriminate|].
    now apply Unsigned.to_uint_nonnil in E.
Qed.

Lemma dropWhile_head {A : Type} (p : A -> bool) (l : list A) :
  Forall (fun x => p x = false) l -> dropWhile p l = l.
Proof. destruct 1 as [|x l Hx _]; simpl; [reflexivity|now rewrite Hx]. Qed.

Lemma trim_no_space (l : list ascii) :
  Forall (fun c => isStrWhiteSpaceChar c = false) l -> trim l = l.
Proof.
  intros H. unfold trim. rewrite (dropWhile_head _ l H).
  rewrite dropWhile_head by now apply Forall_rev. apply rev_involutive.
Qed.

Lemma ofQ_integer (negative : bool) (n : N) :
  ofQ negative (inject_Z (Z.of_N n) * Qpower 10 (0 - Z.of_nat 0))%Q
  = ofQ negative (inject_Z (Z.of_N n)).
Proof. unfold ofQ. simpl. now rewrite Z.mul_1_r. Qed.

(** A run of decimal digits is read as the integer it writes. *)
Lemma parseUnsignedDecimal_digits (negative : bool) (d : Decimal.uint) :
  d <> Decimal.Nil ->
  parseUnsignedDecimal negative (list_ascii_of_string (NilEmpty.string_of_uint d))
  = ofQ negative (inject_Z (Z.of_N (N.of_uint d))).
Proof.
  intros Hd. unfold parseUnsignedDecimal.
  assert (Hinf : String.eqb (string_of_list_ascii
                               (list_ascii_of_string (NilEmpty.string_of_uint d)))
                            "Infinity" = false).
  { pose proof (digits_of_uint d) as Hdigits.
    destruct (list_ascii_of_string (NilEmpty.string_of_uint d)) as [|c l];
      [reflexivity|].
    inversion Hdigits as [|? ? Hc _]; subst.
    destruct (digit_facts c Hc) as (_ & _ & _ & _ & HI).
    cbn [string_of_list_ascii String.eqb]. now rewrite HI. }
  rewrite Hinf, readDigits_of_uint. cbn [Nat.add].
  destruct d; try congruence; cbn [Decimal.nb_digits Nat.add parseExponent];
    apply ofQ_integer.
Qed.

Lemma StringToNumber_decimalDigits (negative : bool) (n : Z) :
  0 <= n ->
  StringToNumber ((if negative then "-" else "") ++ decimalDigits n)
  = ofQ negative (inject_Z n).
Proof.
  intros Hn. destruct (decimalDigits_uint n) as (d & Hd & Hval & ->).
  rewrite <- (Z2N.id n Hn), <- Hval, <- (parseUnsignedDecimal_digits negative d Hd).
  pose proof (digits_of_uint d) as Hdigits.
  assert (Hspace : Forall (fun c => isStrWhiteSpaceChar c = false)
                          (list_ascii_of_string (NilEmpty.string_of_uint d))).
  { eapply Forall_impl; [|exact Hdigits]. intros c Hc. now apply digit_facts. }
  unfold StringToNumber. destruct negative.
  - cbn [append list_ascii_of_string].
    rewrite trim_no_space by (constructor; [reflexivity|exact Hspace]).
    reflexivity.
  - cbn [append]. rewrite trim_no_space by exact Hspace.
    destruct (list_ascii_of_string (NilEmpty.string_of_uint d)) as [|c l] eqn:El.
    { destruct d; [congruence|discriminate..]. }
    inversion Hdigits as [|? ? Hc Hl]; subst.
    destruct c as [[|] [|] [|] [|] [|] [|] [|] [|]];
      try (exfalso; apply Hc; reflexivity); try reflexivity.
    destruct l as [|c' l']; [reflexivity|].
    inversion Hl as [|? ? Hc' _]; subst.
    destruct (digit_facts c' Hc') as (_ & Hx & Ho & Hb & _).
    now rewrite Hx, Ho, Hb.
Qed.

Lemma magnitude_nonneg (x : number) : (0 <= magnitude x)%Q.
Proof.
  destruct x; simpl; try apply Qle_refl.
  apply Qmult_le_0_compat; [discriminate|]. apply Qpower_0_le. discriminate.
Qed.

Lemma nearestScaled_nonneg (q : Q) : (0 <= q)%Q -> 0 <= nearestScaled 0 q.
Proof.
  intros Hq. unfold nearestScaled.
  change 0 with (Qfloor 0). apply Qfloor_resp_le.
  apply Qle_trans with (q * 1)%Q.
  - rewrite Qmult_1_r. exact Hq.
  - rewrite <- (Qplus_0_r (q * 1)) at 1. apply Qplus_le_r. discriminate.
Qed.

(** Below [10^21], [toFixed(0)] then [Number] give the float nearest to
    the integer nearest to the number, ties going away from zero. *)
Lemma Number_toFixed_0 (x : number) :
  isFinite x = true ->
  Qle_bool (Qpower 10 21) (magnitude x) = false ->
  StringToNumber (toFixed 0 x)
  = ofQ (isNegative x) (inject_Z (nearestScaled 0 (magnitude x))).
Proof.
  intros Hfinite Hsmall. unfold toFixed. rewrite Hfinite, Hsmall.
  cbn [negb Z.eqb].
  apply StringToNumber_decimalDigits, nearestScaled_nonneg, magnitude_nonneg.
Qed.

(* ===================================================================== *)
(** ** The first-spread multipliers *)
(* ===================================================================== *)

Lemma zero_of_strictEquals (x : number) :
  strictEquals x zero = true -> exists negative, x = S754_zero negative.
Proof.
  destruct x as [s|s| |s m e]; simpl; try discriminate; eauto.
  - destruct s; discriminate.
  - destruct s; discriminate.
Qed.

(** What a [getFssm] rule leaves in the record: the divisor is the
    [adsStandSpreadInc] of the record, whichever the property. *)
Lemma firstSpreadMul_value (w : node) (col : Z) (p : string)
      (before after : list rule) :
  rules w = (before ++ (p, "spreadIncDecTable", Some (getFssm w 1 col)) :: after)%list ->
  p <> "adsStandSpreadInc" ->
  (forall r, In r after -> property r <> "adsStandSpreadInc" /\ property r <> p) ->
  let sips := Number (read "adsStandSpreadInc" (extract w [])) in
  let firstSips := Number (prune (cellText w "spreadIncDecTable" 1 col) noOptions) in
  get p (extract w [])
  = Some (VNumber (if strictEquals sips zero then sips
                   else StringToNumber (toFixed 0 (div firstSips sips)))).
Proof.
  intros E Hp Hafter.
  assert (Hin : forall r, In r after -> In r (rules w)).
  { intros r Hr. rewrite E. apply in_or_app. right. now right. }
  assert (Hself : In (p, "spreadIncDecTable", Some (getFssm w 1 col)) (rules w)).
  { rewrite E. apply in_or_app. right. now left. }
  set (o := fold_left (applyRule w) before []).
  assert (Hread : read "adsStandSpreadInc" (extract w []) = read "adsStandSpreadInc" o).
  { unfold read. rewrite (extract_through w before _ after [] E).
    rewrite fold_applyRule_other by (auto; intros r Hr; now apply Hafter).
    rewrite (applyRule_other w _ _ "adsStandSpreadInc" Hself)
      by (cbn [property fst]; congruence).
    reflexivity. }
  cbv zeta. rewrite Hread.
  rewrite (extract_through w before _ after [] E).
  rewrite fold_applyRule_other by (auto; intros r Hr; now apply Hafter).
  fold o. unfold applyRule. cbn [customBehavior property className fst snd].
  unfold getFssm, getSpread. rewrite get_set_same, read_set_same.
  rewrite read_set_other by congruence.
  replace (adjustedCol 1 col true) with col by reflexivity.
  clearbody o. now destruct (strictEquals (Number (read "adsStandSpreadInc" o)) zero).
Qed.

(** C3.  When the [adsStandSpreadInc] of the record is zero, the key
    [adsStandFirstSpreadMul] holds that zero, a number and not [NaN];
    otherwise it holds, as a number, the quotient of the first-shot cell
    by [adsStandSpreadInc] written with no decimals by [toFixed(0)]: for a
    finite quotient below [10^21] that is the float of the integer
    nearest to the quotient, with the quotient's sign. *)
Theorem adsStandFirstSpreadMul_value (w : node) :
  let record := extract w [] in
  let sips := Number (read "adsStandSpreadInc" record) in
  let firstSips := Number (prune (cellText w "spreadIncDecTable" 1 1) noOptions) in
  let quotient := div firstSips sips in
  (strictEquals sips zero = true ->
   get "adsStandFirstSpreadMul" record = Some (VNumber sips) /\
   exists negative, sips = S754_zero negative) /\
  (strictEquals sips zero = false ->
   get "adsStandFirstSpreadMul" record
   = Some (VNumber (StringToNumber (toFixed 0 quotient)))) /\
  (isFinite quotient = true ->
   Qle_bool (Qpower 10 21) (magnitude quotient) = false ->
   StringToNumber (toFixed 0 quotient)
   = ofQ (isNegative quotient) (inject_Z (nearestScaled 0 (magnitude quotient)))).
Proof.
  cbv zeta.
  pose proof (firstSpreadMul_value w 1 "adsStandFirstSpreadMul"
                (firstn 28 (rules w)) (skipn 29 (rules w)) eq_refl) as H.
  cbv zeta in H. rewrite H; clear H.
  - split; [|split].
    + intros Hz; rewrite Hz. split; [reflexivity | now apply zero_of_strictEquals].
    + intros Hz; rewrite Hz. reflexivity.
    + apply Number_toFixed_0.
  - discriminate.
  - simpl. intros r [<-|[<-|[<-|[]]]]; split; discriminate.
Qed.

Lemma adsStandFirstSpreadMul_value_witness :
  get "adsStandFirstSpreadMul" (extract Samples.steadyRifle []) = Some (VNumber zero) /\
  get "adsStandFirstSpreadMul" (extract Samples.looseRifle [])
  = Some (VNumber (StringToNumber "4")) /\
  StringToNumber (toFixed 0 (div (StringToNumber "7") (StringToNumber "2")))
  = ofQ false (inject_Z 4).
Proof.
  split; [|split].
  - generalize (proj1 (proj1 (adsStandFirstSpreadMul_value Samples.steadyRifle)
                             ltac:(vm_compute; reflexivity))).
    vm_compute. exact (fun H => H).
  - generalize (proj1 (proj2 (adsStandFirstSpreadMul_value Samples.looseRifle))
                      ltac:(vm_compute; reflexivity)).
    vm_compute. exact (fun H => H).
  - generalize (proj2 (proj2 (adsStandFirstSpreadMul_value Samples.looseRifle))
                      ltac:(vm_compute; reflexivity) ltac:(vm_compute; reflexivity)).
    vm_compute. exact (fun H => H).
Defined.

(** For every weapon the key [hipStandFirstSpreadMul] is derived from
    [adsStandSpreadInc] as well: [hipStandSpreadInc] plays no part. *)
Lemma hipStandFirstSpreadMul_value (w : node) :
  let sips := Number (read "adsStandSpreadInc" (extract w [])) in
  let firstSips := Number (prune (cellText w "spreadIncDecTable" 1 2) noOptions) in
  get "hipStandFirstSpreadMul" (extract w [])
  = Some (VNumber (if strictEquals sips zero then sips
                   else StringToNumber (toFixed 0 (div firstSips sips)))).
Proof.
  apply (firstSpreadMul_value w 2 "hipStandFirstSpreadMul"
           (firstn 29 (rules w)) (skipn 30 (rules w)) eq_refl).
  - discriminate.
  - simpl. intros r [<-|[<-|[]]]; split; discriminate.
Qed.

(** C1 (the code departs from it).  On the shotgun, whose first-shot hip
    cell is 8 and whose increases are 2 (aimed) and 4 (hip), the script
    stores 8 / 2 = 4 under [hipStandFirstSpreadMul]; the earlier script
    divides by [hipStandSpreadInc] and stores 8 / 4 = 2. *)
Theorem hipStandFirstSpreadMul_divides_by_ads_increase :
  let record := extract Samples.shotgun [] in
  cellText Samples.shotgun "spreadIncDecTable" 1 2 = Some "8" /\
  get "adsStandSpreadInc" record = Some (VNumber (StringToNumber "2")) /\
  get "hipStandSpreadInc" record = Some (VNumber (StringToNumber "4")) /\
  get "hipStandFirstSpreadMul" record = Some (VNumber (StringToNumber "4")) /\
  get "hipStandFirstSpreadMul"
      (fold_left (applyRule Samples.shotgun) (Legacy.spreadIncRules Samples.shotgun) [])
  = Some (VString "2").
Proof. cbv zeta. repeat split; vm_compute; reflexivity. Qed.


(* ===================================================================== *)
(** ** Filing the record under the weapon name *)
(* ===================================================================== *)

Lemma fold_left_cons {A B : Type} (f : A -> B -> A) (x : B) (l : list B) (a : A) :
  fold_left f (x :: l) a = fold_left f l (f a x).
Proof. reflexivity. Qed.

Lemma mutate_last (f : object value -> object value) (h : list (object value))
      (o : object value) :
  mutate (List.length h) f (h ++ [o])%list = (h ++ [f o])%list.
Proof. induction h as [|o' h IH]; simpl; [reflexivity|]. now rewrite IH. Qed.

(** The rules fill in the record allocated last and leave the rest of
    the state alone. *)
Lemma fill_record (w : node) (rs : list rule) (h : list (object value))
      (o : object value) (sd : object nat) (p : option nat) :
  fold_left
    (fun st r =>
       {| heap := mutate (List.length h) (fun o => applyRule w o r) (heap st);
          symData := symData st;
          prototype := prototype st |})
    rs {| heap := (h ++ [o])%list; symData := sd; prototype := p |}
  = {| heap := (h ++ [fold_left (applyRule w) rs o])%list;
       symData := sd; prototype := p |}.
Proof.
  revert o. induction rs as [|r rs IH]; intros o; [reflexivity|].
  rewrite !fold_left_cons. cbn [heap symData prototype].
  rewrite mutate_last. apply IH.
Qed.

(** The record that [symData] refers to is filled in after the
    assignment; at the end of the loop body it is the extracted record. *)
Lemma processWeapon_result (st : store) (w : node) :
  processWeapon st w
  = {| heap := (heap st ++ [extract w []])%list;
       symData := symData (assign (ToString (weaponName w)) (List.length (heap st)) st);
       prototype := prototype (assign (ToString (weaponName w)) (List.length (heap st)) st) |}.
Proof.
  unfold processWeapon, extract, assign. cbn [heap symData prototype].
  destruct (get (ToString (weaponName w)) (symData st));
    [|destruct (String.eqb (ToString (weaponName w)) "__proto__")];
    cbn [heap symData prototype]; apply fill_record.
Qed.

(** A key other than [__proto__] becomes or stays an own property. *)
Lemma symData_assign (key : string) (ref : nat) (st : store) :
  key <> "__proto__" -> symData (assign key ref st) = set key ref (symData st).
Proof.
  intros Hkey. unfold assign. destruct (get key (symData st)); [reflexivity|].
  destruct (String.eqb_spec key "__proto__"); [contradiction | reflexivity].
Qed.

(** On an object without an own [__proto__] the assignment to that key
    replaces the prototype and adds no property. *)
Lemma assign_proto (ref : nat) (st : store) :
  get "__proto__" (symData st) = None ->
  symData (assign "__proto__" ref st) = symData st /\
  prototype (assign "__proto__" ref st) = Some ref.
Proof. intros Hown. unfold assign. rewrite Hown. now split. Qed.

Lemma get_assign_other (key : string) (ref : nat) (st : store) (k : string) :
  k <> key -> get k (symData (assign key ref st)) = get k (symData st).
Proof.
  intros Hk. unfold assign. destruct (get key (symData st));
    [|destruct (String.eqb key "__proto__")];
    cbn [symData]; try reflexivity; now apply get_set_other.
Qed.

Lemma get_map {A B : Type} (g : A -> B) (k : string) (o : object A) :
  get k (map (fun '(name, ref) => (name, g ref)) o) = option_map g (get k o).
Proof.
  induction o as [|[k' a] o IH]; simpl; [reflexivity|].
  now destruct (String.eqb k k').
Qed.

(** What the loop body does for every name but [__proto__]: it files the
    weapon's record under the text of the [lblWeaponNameValue] element,
    whole (spaces kept, only degree signs removed) and as a string, and
    under "undefined" when the block has no such element.  No other key
    of [symData] and no earlier record changes. *)
Lemma processWeapon_files_named_record (st : store) (w : node) :
  let key := match querySelector ".lblWeaponNameValue" w with
             | Some name => stripBadCharacters (textContent name)
             | None => "undefined"
             end in
  let st' := processWeapon st w in
  key <> "__proto__" ->
  get key (symData st') = Some (List.length (heap st)) /\
  nth_error (heap st') (List.length (heap st)) = Some (extract w []) /\
  get key (resolve st') = Some (extract w []) /\
  (forall k, k <> key -> get k (symData st') = get k (symData st)) /\
  (forall ref, (ref < List.length (heap st))%nat ->
               nth_error (heap st') ref = nth_error (heap st) ref).
Proof.
  cbv zeta. rewrite processWeapon_result.
  assert (Hkey : ToString (weaponName w)
                 = match querySelector ".lblWeaponNameValue" w with
                   | Some name => stripBadCharacters (textContent name)
                   | None => "undefined"
                   end).
  { unfold weaponName, getValue. simpl append.
    now destruct (querySelector ".lblWeaponNameValue" w). }
  rewrite <- Hkey. intros Hname. unfold resolve. cbn [heap symData].
  rewrite symData_assign by exact Hname.
  rewrite get_map, get_set_same. simpl option_map.
  rewrite nth_middle, nth_error_app2, Nat.sub_diag by lia.
  repeat split; auto.
  - intros k Hk. now apply get_set_other.
  - intros ref Href. now apply nth_error_app1.
Qed.

(** C8.  A weapon block whose name is [__proto__] is not filed.  On a
    [symData] without an own [__proto__] property, as the script's always
    is, the assignment [symData[weaponName] = weaponData] runs the setter
    that [symData] inherits: the record becomes the prototype of
    [symData], [symData] keeps the own properties it had, and although
    the record is built there is no entry under the weapon's name. *)
Theorem proto_named_weapon_is_not_filed (st : store) (w : node) :
  get "__proto__" (symData st) = None ->
  ToString (weaponName w) = "__proto__" ->
  let st' := processWeapon st w in
  symData st' = symData st /\
  prototype st' = Some (List.length (heap st)) /\
  nth_error (heap st') (List.length (heap st)) = Some (extract w []) /\
  get (ToString (weaponName w)) (resolve st') = None.
Proof.
  intros Hown Hname. cbv zeta. rewrite processWeapon_result, Hname.
  destruct (assign_proto (List.length (heap st)) st Hown) as [Hsd Hproto].
  unfold resolve. cbn [heap symData prototype]. rewrite Hsd, Hproto.
  repeat split.
  - rewrite nth_error_app2, Nat.sub_diag by lia. reflexivity.
  - rewrite get_map, Hown. reflexivity.
Qed.

Lemma proto_named_weapon_is_not_filed_witness :
  symData (processWeapon emptyStore Samples.protoRifle) = [] /\
  prototype (processWeapon emptyStore Samples.protoRifle) = Some 0%nat /\
  nth_error (heap (processWeapon emptyStore Samples.protoRifle)) 0
  = Some (extract Samples.protoRifle []) /\
  get "__proto__" (resolve (processWeapon emptyStore Samples.protoRifle)) = None.
Proof.
  generalize (proto_named_weapon_is_not_filed emptyStore Samples.protoRifle
                eq_refl ltac:(vm_compute; reflexivity)).
  vm_compute. exact (fun H => H).
Defined.

(** On a page whose second weapon is named [__proto__] the serialisers see
    the first weapon only. *)
Lemma protoPage_loses_weapon :
  keys (resolve (scrape Script.protoPage)) = ["Loose Rifle"] /\
  prototype (scrape Script.protoPage) = Some 1%nat.
Proof. vm_compute. split; reflexivity. Qed.

(* ===================================================================== *)
(** ** The pretty printer *)
(* ===================================================================== *)

(** Brings nested concatenations to one right-nested form. *)
Ltac normalize_append :=
  unfold INDENT, DOUBLE_INDENT, LF, DQUOTE;
  repeat (progress (rewrite ?append_assoc; cbn [append])).

(** C9.  For two weapons of two attributes each the pretty printer
    writes a comma at the end of each weapon's first attribute line and
    none at the end of its second, a comma after the first weapon's
    closing brace and none after the second's. *)
Theorem prettifySymData_two_weapons
        (name1 name2 a1 a2 b1 b2 : string) (v1 v2 u1 u2 : value) :
  name1 <> name2 -> a1 <> a2 -> b1 <> b2 ->
  prettifySymData [(name1, [(a1, v1); (a2, v2)]); (name2, [(b1, u1); (b2, u2)])]
  = "{" ++ LF
    ++ "  " ++ DQUOTE ++ name1 ++ DQUOTE ++ ": {" ++ LF
    ++ "    " ++ DQUOTE ++ a1 ++ DQUOTE ++ ": " ++ ToString v1 ++ "," ++ LF
    ++ "    " ++ DQUOTE ++ a2 ++ DQUOTE ++ ": " ++ ToString v2 ++ LF
    ++ "  }," ++ LF
    ++ "  " ++ DQUOTE ++ name2 ++ DQUOTE ++ ": {" ++ LF
    ++ "    " ++ DQUOTE ++ b1 ++ DQUOTE ++ ": " ++ ToString u1 ++ "," ++ LF
    ++ "    " ++ DQUOTE ++ b2 ++ DQUOTE ++ ": " ++ ToString u2 ++ LF
    ++ "  }" ++ LF
    ++ "}".
Proof.
  intros Hname Ha Hb.
  apply not_eq_sym, String.eqb_neq in Hname, Ha, Hb.
  unfold prettifySymData, prettifyStats, read.
  repeat (cbn [keys map fst fold_left List.length get Z.of_nat Z.ltb Z.add Z.compare
               Pos.of_succ_nat Pos.succ Pos.compare Pos.compare_cont Pos.add];
          rewrite ?String.eqb_refl, ?Hname, ?Ha, ?Hb).
  match goal with
  | |- substring0 _ ?result ++ _ = _ =>
      replace result with
        (("{" ++ LF
          ++ "  " ++ DQUOTE ++ name1 ++ DQUOTE ++ ": {" ++ LF
          ++ "    " ++ DQUOTE ++ a1 ++ DQUOTE ++ ": " ++ ToString v1 ++ "," ++ LF
          ++ "    " ++ DQUOTE ++ a2 ++ DQUOTE ++ ": " ++ ToString v2 ++ LF
          ++ "  }," ++ LF
          ++ "  " ++ DQUOTE ++ name2 ++ DQUOTE ++ ": {" ++ LF
          ++ "    " ++ DQUOTE ++ b1 ++ DQUOTE ++ ": " ++ ToString u1 ++ "," ++ LF
          ++ "    " ++ DQUOTE ++ b2 ++ DQUOTE ++ ": " ++ ToString u2 ++ LF
          ++ "  }") ++ String "," LF)
  end.
  - rewrite substring0_drop2 by reflexivity. now normalize_append.
  - now normalize_append.
Qed.

Lemma prettifySymData_two_weapons_witness :
  prettifySymData [("M1", [("a", VNumber zero); ("b", VString "x")]);
                   ("M2", [("a", VUndefined); ("b", VNumber NaN)])]
  = "{" ++ LF
    ++ "  " ++ DQUOTE ++ "M1" ++ DQUOTE ++ ": {" ++ LF
    ++ "    " ++ DQUOTE ++ "a" ++ DQUOTE ++ ": 0," ++ LF
    ++ "    " ++ DQUOTE ++ "b" ++ DQUOTE ++ ": x" ++ LF
    ++ "  }," ++ LF
    ++ "  " ++ DQUOTE ++ "M2" ++ DQUOTE ++ ": {" ++ LF
    ++ "    " ++ DQUOTE ++ "a" ++ DQUOTE ++ ": undefined," ++ LF
    ++ "    " ++ DQUOTE ++ "b" ++ DQUOTE ++ ": NaN" ++ LF
    ++ "  }" ++ LF
    ++ "}".
Proof.
  apply (prettifySymData_two_weapons "M1" "M2" "a" "b" "a" "b"
           (VNumber zero) (VString "x") VUndefined (VNumber NaN));
    discriminate.
Defined.

(** The lines of one weapon's attributes are appended to what has been
    written so far. *)
Lemma prettifyStats_appends (stats : object value) :
  exists lines, forall result, prettifyStats stats result = result ++ lines.
Proof.
  unfold prettifyStats.
  generalize (Z.of_nat (List.length (keys stats))) as numStats.
  generalize 0 as statsSeen. generalize (keys stats) at 1 as attributes.
  induction attributes as [|attribute attributes IH]; intros statsSeen numStats.
  - exists "". intros result. simpl. now rewrite append_empty_r.
  - destruct (IH (statsSeen + 1) numStats) as [lines Hlines].
    eexists. intros result. simpl fold_left. rewrite Hlines.
    rewrite append_assoc. reflexivity.
Qed.

Lemma prettify_weapon_appends (symData : object (object value)) (weapon : string) :
  exists chunk, forall result,
    match get weapon symData with
    | Some stats =>
        prettifyStats stats (result ++ INDENT ++ DQUOTE ++ weapon ++ DQUOTE ++ ": {" ++ LF)
        ++ INDENT ++ "}," ++ LF
    | None => result
    end = result ++ chunk.
Proof.
  destruct (get weapon symData) as [stats|].
  - destruct (prettifyStats_appends stats) as [lines Hlines].
    eexists. intros result. rewrite Hlines, !append_assoc. reflexivity.
  - exists "". intros result. now rewrite append_empty_r.
Qed.

Lemma prettify_weapons_append (symData : object (object value)) (weapons : list string) :
  exists body, forall result,
    fold_left
      (fun result weapon =>
         match get weapon symData with
         | Some stats =>
             prettifyStats stats (result ++ INDENT ++ DQUOTE ++ weapon ++ DQUOTE ++ ": {" ++ LF)
             ++ INDENT ++ "}," ++ LF
         | None => result
         end) weapons result
    = result ++ body.
Proof.
  induction weapons as [|weapon weapons IH].
  - exists "". intros result. simpl. now rewrite append_empty_r.
  - destruct IH as [body Hbody].
    destruct (prettify_weapon_appends symData weapon) as [chunk Hchunk].
    exists (chunk ++ body). intros result. simpl fold_left.
    rewrite Hchunk, Hbody, append_assoc. reflexivity.
Qed.

Lemma get_of_key {V : Type} (k : string) (o : object V) :
  In k (keys o) -> get k o <> None.
Proof.
  induction o as [|[k' v] o IH]; simpl; [tauto|].
  intros [->|Hin].
  - now rewrite String.eqb_refl.
  - destruct (String.eqb k k'); [discriminate|auto].
Qed.

(** C10.  For the empty mapping the pretty printer returns a line feed
    followed by a closing brace, two characters, because the cut of the
    last two characters removes the opening brace and its line feed; for
    every other mapping the output starts with an opening brace and ends
    with a closing brace. *)
Theorem prettifySymData_empty_and_nonempty :
  prettifySymData [] = LF ++ "}" /\
  String.length (prettifySymData []) = 2%nat /\
  prettifySymData [] <> "{}" /\
  forall symData : object (object value),
    symData <> [] ->
    exists body, prettifySymData symData = "{" ++ body ++ "}".
Proof.
  split; [reflexivity|]. split; [reflexivity|]. split; [discriminate|].
  intros symData Hne. unfold prettifySymData.
  destruct (exists_last (l := keys symData)) as (weapons & weapon & Hkeys).
  { destruct symData; [congruence|discriminate]. }
  cbv zeta. rewrite Hkeys, fold_left_app. cbn [fold_left].
  destruct (prettify_weapons_append symData weapons) as [body ->].
  assert (Hin : In weapon (keys symData)).
  { rewrite Hkeys. apply in_or_app. right. now left. }
  destruct (get weapon symData) as [stats|] eqn:Hget;
    [|now apply get_of_key in Hin].
  destruct (prettifyStats_appends stats) as [lines ->].
  match goal with
  | |- exists _, substring0 _ ?result ++ _ = _ =>
      replace result with
        (("{" ++ LF ++ body ++ INDENT ++ DQUOTE ++ weapon ++ DQUOTE ++ ": {" ++ LF
              ++ lines ++ INDENT ++ "}") ++ String "," LF)
        by now normalize_append
  end.
  rewrite substring0_drop2 by reflexivity.
  exists (LF ++ body ++ INDENT ++ DQUOTE ++ weapon ++ DQUOTE ++ ": {" ++ LF
             ++ lines ++ INDENT ++ "}" ++ LF).
  now normalize_append.
Qed.

Lemma prettifySymData_nonempty_witness :
  exists body,
    prettifySymData [("M1", [("a", VNumber zero)])] = "{" ++ body ++ "}".
Proof.
  apply (proj2 (proj2 (proj2 prettifySymData_empty_and_nonempty))). discriminate.
Defined.

(* ===================================================================== *)
(** ** More on the text normaliser *)
(* ===================================================================== *)

Lemma replaceAll_removes (c : ascii) (s : string) :
  ~ In c (list_ascii_of_string (replaceAll c "" s)).
Proof.
  induction s as [|d s IH]; simpl; [tauto|].
  destruct (Ascii.eqb_spec d c) as [->|Hne]; simpl; [exact IH|].
  intros [E|Hin]; [now apply Hne | now apply IH].
Qed.

Lemma replaceAll_absent (c : ascii) (s : string) :
  ~ In c (list_ascii_of_string s) -> replaceAll c "" s = s.
Proof.
  induction s as [|d s IH]; simpl; [reflexivity|]. intros Hnot.
  destruct (Ascii.eqb_spec d c) as [->|Hne].
  - exfalso. apply Hnot. now left.
  - f_equal. apply IH. intros Hin. apply Hnot. now right.
Qed.

Lemma replaceAll_subset (c d : ascii) (s : string) :
  In d (list_ascii_of_string (replaceAll c "" s)) -> In d (list_ascii_of_string s).
Proof.
  induction s as [|e s IH]; simpl; [tauto|].
  destruct (Ascii.eqb e c); simpl; [intros Hin; right; now apply IH|].
  intros [E|Hin]; [now left | right; now apply IH].
Qed.

(** The pieces of a split hold no separator. *)
Lemma split_pieces_noSpace (s : string) : Forall Spec.noSpace (split SPACE s).
Proof.
  induction s as [|c s IH]; simpl.
  - constructor; [intros c []|constructor].
  - destruct (Ascii.eqb_spec c SPACE) as [->|Hne].
    + constructor; [intros c []|exact IH].
    + destruct (split SPACE s) as [|piece pieces] eqn:Es;
        [now apply split_not_nil in Es|].
      inversion IH as [|? ? Hpiece Hpieces]; subst.
      constructor; [|exact Hpieces].
      intros d [<-|Hin]; [exact Hne | now apply Hpiece].
Qed.

(** When every piece of the split is empty the string is made of spaces. *)
Lemma split_all_empty (s : string) :
  find (fun candidate => negb (JSString.length candidate =? 0)) (split SPACE s) = None ->
  forall c, In c (list_ascii_of_string s) -> c = SPACE.
Proof.
  induction s as [|c s IH]; simpl; [intros _ c []|].
  destruct (Ascii.eqb_spec c SPACE) as [->|Hne]; simpl.
  - intros Hnone d [<-|Hin]; [reflexivity | now apply IH].
  - destruct (split SPACE s) as [|piece pieces]; simpl; discriminate.
Qed.

(** What [firstWord] returns: the string itself when it is made of spaces
    only, and otherwise a non-empty word without a space. *)
Lemma firstWord_cases (s : string) :
  (firstWord s = s /\ forall c, In c (list_ascii_of_string s) -> c = SPACE) \/
  (firstWord s <> "" /\ Spec.noSpace (firstWord s)).
Proof.
  unfold firstWord.
  destruct (find _ (split SPACE s)) as [candidate|] eqn:Hfind.
  - right. apply find_some in Hfind. destruct Hfind as [Hin Hlen]. split.
    + intros ->. discriminate.
    + pose proof (split_pieces_noSpace s) as Hall.
      rewrite Forall_forall in Hall. now apply Hall.
  - left. split; [reflexivity | now apply split_all_empty].
Qed.

Lemma firstWord_noSpace (s : string) : Spec.noSpace s -> firstWord s = s.
Proof.
  intros Hns. unfold firstWord.
  destruct (split_token s "" Hns (or_introl eq_refl)) as [pieces Hsplit].
  rewrite append_empty_r in Hsplit.
  assert (Hpieces : pieces = []).
  { clear Hns. revert pieces Hsplit. induction s as [|c s IH]; simpl; intros pieces.
    - now intros [= <-].
    - destruct (Ascii.eqb c SPACE).
      + intros [=].
      + destruct (split SPACE s) as [|p ps] eqn:Es; [now intros [= <-]|].
        intros [= -> <-]. now apply IH. }
  rewrite Hsplit, Hpieces. simpl. now destruct s.
Qed.

Lemma stripBadCharacters_spaces (s : string) :
  (forall c, In c (list_ascii_of_string s) -> c = SPACE) -> stripBadCharacters s = s.
Proof.
  intros Hs. unfold stripBadCharacters. simpl. apply replaceAll_absent.
  intros Hin. apply Hs in Hin. discriminate.
Qed.

Lemma stripBadCharacters_idempotent (s : string) :
  stripBadCharacters (stripBadCharacters s) = stripBadCharacters s.
Proof.
  unfold stripBadCharacters. simpl. apply replaceAll_absent, replaceAll_removes.
Qed.

Lemma stripBadCharacters_noSpace (s : string) :
  Spec.noSpace s -> Spec.noSpace (stripBadCharacters s).
Proof.
  intros Hs c Hin. apply Hs. unfold stripBadCharacters in Hin. simpl in Hin.
  now apply replaceAll_subset in Hin.
Qed.

(** X1.  A string that [prune] returns holds no degree sign, whatever the
    options. *)
Theorem prune_string_has_no_degree (text : string) (opts : options) (s : string) :
  prune (Some text) opts = VString s ->
  ~ In DEGREE (list_ascii_of_string s).
Proof.
  unfold prune. destruct (isFalse (asNumber opts)); [|discriminate].
  intros [= <-]. unfold stripBadCharacters. simpl. apply replaceAll_removes.
Qed.

Lemma prune_string_has_no_degree_witness :
  ~ In DEGREE (list_ascii_of_string "45").
Proof.
  apply (prune_string_has_no_degree ("45" ++ String DEGREE " up")
           {| keepSpaces := None; asNumber := Some false |} "45").
  reflexivity.
Defined.

(** X2.  [prune] is idempotent on strings: pruning again what it returned
    as a string, under the same options, returns it unchanged. *)
Theorem prune_idempotent (text : string) (opts : options) (s : string) :
  prune (Some text) opts = VString s ->
  prune (Some s) opts = VString s.
Proof.
  unfold prune. destruct (isFalse (asNumber opts)); [|discriminate].
  intros [= <-]. f_equal.
  destruct (negb (truthy (keepSpaces opts))).
  - destruct (firstWord_cases text) as [[Hfirst Hspaces]|[_ Hns]].
    + rewrite Hfirst, (stripBadCharacters_spaces text Hspaces), Hfirst.
      now apply stripBadCharacters_spaces.
    + rewrite firstWord_noSpace by now apply stripBadCharacters_noSpace.
      apply stripBadCharacters_idempotent.
  - apply stripBadCharacters_idempotent.
Qed.

Lemma prune_idempotent_witness :
  prune (Some "45") {| keepSpaces := None; asNumber := Some false |} = VString "45".
Proof.
  apply (prune_idempotent ("  45" ++ String DEGREE " up")
           {| keepSpaces := None; asNumber := Some false |} "45").
  reflexivity.
Defined.

(** X3.  With [keepSpaces] off, a string that [prune] returns holds no
    space, unless the input was made of spaces only, which comes back
    whole. *)
Theorem prune_word_has_no_space (text : string) (keep number : option bool) (s : string) :
  truthy keep = false ->
  prune (Some text) {| keepSpaces := keep; asNumber := number |} = VString s ->
  Spec.noSpace s \/
  (s = text /\ forall c, In c (list_ascii_of_string text) -> c = SPACE).
Proof.
  intros Hkeep. unfold prune. cbn [keepSpaces asNumber]. rewrite Hkeep. cbn [negb].
  destruct (isFalse number); [|discriminate]. intros [= <-].
  destruct (firstWord_cases text) as [[Hfirst Hspaces]|[_ Hns]].
  - right. rewrite Hfirst. split; [now apply stripBadCharacters_spaces | exact Hspaces].
  - left. now apply stripBadCharacters_noSpace.
Qed.

Lemma prune_word_has_no_space_witness :
  Spec.noSpace "600" \/
  ("600" = " 600 rpm" /\ forall c, In c (list_ascii_of_string " 600 rpm") -> c = SPACE).
Proof.
  apply (prune_word_has_no_space " 600 rpm" None (Some false) "600"); reflexivity.
Defined.

(** X4.  With [keepSpaces] on and [asNumber] off, a text without a degree
    sign comes back unchanged, spaces included. *)
Theorem prune_keeps_clean_text (text : string) :
  ~ In DEGREE (list_ascii_of_string text) ->
  prune (Some text) {| keepSpaces := Some true; asNumber := Some false |}
  = VString text.
Proof.
  intros Hclean. unfold prune. cbn. f_equal.
  unfold stripBadCharacters. simpl. now apply replaceAll_absent.
Qed.

Lemma prune_keeps_clean_text_witness :
  prune (Some "Lee Enfield No 4")
        {| keepSpaces := Some true; asNumber := Some false |}
  = VString "Lee Enfield No 4".
Proof.
  apply (prune_keeps_clean_text "Lee Enfield No 4").
  simpl. intuition discriminate.
Defined.

(* ===================================================================== *)
(** ** More on the rule list *)
(* ===================================================================== *)

(** X5.  A rule without a custom function stores, when the weapon block
    has an element of its class, the number that the first word of the
    first such element's text converts to; and nothing otherwise. *)
Theorem simple_rule_value (w : node) (r : rule) :
  In r (rules w) ->
  customBehavior r = None ->
  get (property r) (extract w [])
  = option_map
      (fun e => VNumber (StringToNumber (stripBadCharacters (firstWord (textContent e)))))
      (querySelector ("." ++ className r) w).
Proof.
  intros Hin Hcustom.
  destruct (extract_at w r Hin) as (o & Ho & ->).
  unfold applyRule. rewrite Hcustom. unfold getValue.
  destruct (querySelector ("." ++ className r) w) as [e|]; simpl.
  - now rewrite get_set_same.
  - exact Ho.
Qed.

Lemma simple_rule_value_witness :
  get "ammoCapacity" (extract Samples.shotgun []) = Some (VNumber (StringToNumber "5")).
Proof.
  apply (simple_rule_value Samples.shotgun ("ammoCapacity", "lblMag", None)).
  - unfold rules. now left.
  - reflexivity.
Defined.

(** X6.  Every table rule of the list leaves in the record what
    [getSpread] read: the pruned text of the cell at its row and its
    adjusted column, or [undefined] when the table, the row or the cell is
    missing.  No later rule touches it. *)
Theorem spread_rule_value (w : node) (p c : string) (row col : Z) (dynamicCol : bool) :
  In (p, c, Some (getSpread w row col dynamicCol)) (rules w) ->
  get p (extract w [])
  = Some (prune (cellText w c row (adjustedCol row col dynamicCol)) noOptions).
Proof.
  intros Hin. destruct (extract_at w _ Hin) as (o & Ho & E).
  cbn [property fst] in E. rewrite E.
  unfold applyRule. cbn [customBehavior property className fst snd].
  unfold getSpread. apply get_set_same.
Qed.

Lemma spread_rule_value_witness :
  get "hipStandSpreadDec" (extract Samples.shotgun [])
  = Some (VNumber (StringToNumber "7")).
Proof.
  apply (spread_rule_value Samples.shotgun "hipStandSpreadDec" "spreadIncDecTable" 3 2 false).
  unfold rules. do 31 right. now left.
Defined.

(** *** The kinds of value stored *)

Lemma prune_default_not_string (text : option string) (s : string) :
  prune text noOptions <> VString s.
Proof. destruct text; discriminate. Qed.

Section Values.
Variable P : value -> Prop.

Lemma update_values (k : string) (v : value) (o : object value) :
  P v -> Forall (fun kv => P (snd kv)) o ->
  Forall (fun kv => P (snd kv)) (update k v o).
Proof.
  intros Hv. induction 1 as [|[k' v'] o Hkv Ho IH]; simpl; [constructor|].
  destruct (String.eqb k k'); constructor; auto.
Qed.

Lemma insertIndex_values (i : N) (k : string) (v : value) (o : object value) :
  P v -> Forall (fun kv => P (snd kv)) o ->
  Forall (fun kv => P (snd kv)) (insertIndex i k v o).
Proof.
  intros Hv. induction 1 as [|[k' v'] o Hkv Ho IH]; simpl; [repeat constructor; auto|].
  destruct (arrayIndex k') as [j|]; [destruct (j <? i)%N|]; repeat constructor; auto.
Qed.

(** An assignment adds the assigned value and no other. *)
Lemma set_values (k : string) (v : value) (o : object value) :
  P v -> Forall (fun kv => P (snd kv)) o ->
  Forall (fun kv => P (snd kv)) (set k v o).
Proof.
  intros Hv Ho. unfold set. destruct (get k o).
  - now apply update_values.
  - destruct (arrayIndex k).
    + now apply insertIndex_values.
    + apply Forall_app. split; [exact Ho|]. repeat constructor. exact Hv.
Qed.

End Values.

Lemma get_In {V : Type} (k : string) (v : V) (o : object V) :
  get k o = Some v -> In (k, v) o.
Proof.
  induction o as [|[k' v'] o IH]; simpl; [discriminate|].
  destruct (String.eqb_spec k k') as [->|Hne].
  - intros [= ->]. now left.
  - intros H. right. now apply IH.
Qed.

Lemma applyRule_no_string (w : node) (r : rule) (o : object value) :
  In r (rules w) ->
  Forall (fun kv => forall s, snd kv <> VString s) o ->
  Forall (fun kv => forall s, snd kv <> VString s) (applyRule w o r).
Proof.
  intros Hin Ho. unfold rules in Hin. simpl in Hin.
  repeat (destruct Hin as [<-|Hin];
          [ unfold applyRule; cbn [customBehavior property className fst snd];
            first
              [ destruct (getValue w _ noOptions) eqn:E;
                [ exact Ho
                | apply (set_values (fun v => forall s, v <> VString s)); [discriminate | exact Ho]
                | now apply prune_default_not_string in E ]
              | unfold pelletsBehavior; destruct (find _ _);
                [ apply (set_values (fun v => forall s, v <> VString s)); [apply prune_default_not_string | exact Ho]
                | exact Ho ]
              | unfold getFssm, getSpread, recoilLeftBehavior, recoilRightBehavior,
                  recoilFirstShotBehavior;
                repeat (apply (set_values (fun v => forall s, v <> VString s));
                        [first [apply prune_default_not_string | discriminate]|]);
                exact Ho ]
          | ]).
  destruct Hin.
Qed.

(** X7.  The record of a weapon holds numbers and [undefined] only: no
    rule of the script stores a string. *)
Theorem extract_stores_no_string (w : node) :
  Forall (fun kv => forall s, snd kv <> VString s) (extract w []).
Proof.
  unfold extract.
  assert (H : forall rs o,
             (forall r, In r rs -> In r (rules w)) ->
             Forall (fun kv => forall s, snd kv <> VString s) o ->
             Forall (fun kv => forall s, snd kv <> VString s)
                    (fold_left (applyRule w) rs o)).
  { induction rs as [|r rs IH]; intros o Hin Ho; simpl; [exact Ho|].
    apply IH; [intros; apply Hin; now right|].
    apply applyRule_no_string; [apply Hin; now left | exact Ho]. }
  apply H; [auto | constructor].
Qed.

(** *** The keys of the record *)

Lemma keys_update {V : Type} (k : string) (v : V) (o : object V) :
  keys (update k v o) = keys o.
Proof.
  induction o as [|[k' v'] o IH]; simpl; [reflexivity|].
  destruct (String.eqb_spec k k') as [->|Hne]; simpl; [reflexivity|].
  f_equal. exact IH.
Qed.

Lemma keys_set_old {V : Type} (k : string) (v : V) (o : object V) :
  get k o <> None -> keys (set k v o) = keys o.
Proof.
  intros Hsome. unfold set. destruct (get k o); [apply keys_update | congruence].
Qed.

Lemma keys_set_new {V : Type} (k : string) (v : V) (o : object V) :
  get k o = None -> arrayIndex k = None -> keys (set k v o) = (keys o ++ [k])%list.
Proof.
  intros Hnone Hindex. unfold set, keys. rewrite Hnone, Hindex, map_app. reflexivity.
Qed.

Ltac keys_of_sets :=
  rewrite ?get_set_same;
  repeat first
    [ rewrite keys_set_new by (assumption || reflexivity)
    | rewrite keys_set_old by (rewrite get_set_same; discriminate) ].

(** A rule that assigns adds its property at the end of the keys; a rule
    that does not assign leaves the keys as they are. *)
Lemma applyRule_keys (w : node) (r : rule) (o : object value) :
  In r (rules w) ->
  get (property r) o = None ->
  keys (applyRule w o r)
  = (keys o ++ match get (property r) (applyRule w o r) with
               | Some _ => [property r]
               | None => []
               end)%list.
Proof.
  intros Hin Hnone. unfold rules in Hin. simpl in Hin.
  repeat (destruct Hin as [<-|Hin];
          [ unfold applyRule; cbn [customBehavior property className fst snd] in *;
            first
              [ destruct (getValue w _ noOptions);
                [ rewrite Hnone; symmetry; apply app_nil_r
                | now keys_of_sets
                | now keys_of_sets ]
              | unfold pelletsBehavior; destruct (find _ _);
                [ now keys_of_sets
                | rewrite Hnone; symmetry; apply app_nil_r ]
              | unfold getFssm, getSpread, recoilLeftBehavior, recoilRightBehavior,
                  recoilFirstShotBehavior;
                now keys_of_sets ]
          | ]).
  destruct Hin.
Qed.

Lemma fold_applyRule_keys (w : node) (rs before : list rule) (o : object value) :
  rules w = (before ++ rs)%list ->
  keys o = filter (fun p => match get p o with Some _ => true | None => false end)
                  (map property before) ->
  keys (fold_left (applyRule w) rs o)
  = filter (fun p => match get p (fold_left (applyRule w) rs o) with
                     | Some _ => true
                     | None => false
                     end)
           (map property (before ++ rs)).
Proof.
  revert before o. induction rs as [|r rs IH]; intros before o E Hkeys.
  - simpl. now rewrite app_nil_r.
  - simpl fold_left.
    replace (before ++ r :: rs)%list with ((before ++ [r]) ++ rs)%list
      by (rewrite <- app_assoc; reflexivity).
    assert (Hin : In r (rules w)).
    { rewrite E. apply in_or_app. right. now left. }
    pose proof (rules_properties_NoDup w) as ND.
    rewrite E, map_app in ND. simpl in ND. apply NoDup_remove_2 in ND.
    assert (Hfresh : ~ In (property r) (map property before)).
    { intros H. apply ND, in_or_app. now left. }
    assert (Hnone : get (property r) o = None).
    { destruct (get (property r) o) as [v|] eqn:G; [|reflexivity].
      exfalso. apply Hfresh. apply get_In in G.
      apply (in_map fst) in G. simpl in G. fold (keys o) in G.
      rewrite Hkeys in G. now apply filter_In in G. }
    apply IH; [rewrite E, <- app_assoc; reflexivity|].
    rewrite (applyRule_keys w r o Hin Hnone), map_app, filter_app, Hkeys.
    f_equal.
    + apply filter_ext_in. intros p Hp.
      rewrite (applyRule_other w r o p Hin); [reflexivity|].
      intros ->. now apply Hfresh.
    + simpl. now destruct (get (property r) (applyRule w o r)).
Qed.

Lemma extract_keys_in_rule_order (w : node) :
  keys (extract w [])
  = filter (fun p => match get p (extract w []) with Some _ => true | None => false end)
           (map property (rules w)).
Proof. exact (fold_applyRule_keys w (rules w) [] [] eq_refl eq_refl). Qed.

Lemma extract_keys_NoDup (w : node) : NoDup (keys (extract w [])).
Proof.
  rewrite extract_keys_in_rule_order. apply NoDup_filter, rules_properties_NoDup.
Qed.

(** X8.  The keys of a weapon's record are the properties of the rules
    that assigned, in the order of the rule list, each of them once. *)
Theorem extract_keys (w : node) :
  keys (extract w [])
  = filter (fun p => match get p (extract w []) with Some _ => true | None => false end)
           (map property (rules w)) /\
  NoDup (keys (extract w [])).
Proof.
  split; [apply extract_keys_in_rule_order | apply extract_keys_NoDup].
Qed.

(* ===================================================================== *)
(** ** The recoil rules *)
(* ===================================================================== *)

Lemma node_induction (P : node -> Prop) :
  (forall data, P (Text data)) ->
  (forall data, P (Comment data)) ->
  (forall tag classes kids, Forall P kids -> P (Element tag classes kids)) ->
  forall n, P n.
Proof.
  intros HText HComment HElement.
  fix IH 1. intros [data|data|tag classes kids];
    [apply HText | apply HComment | apply HElement].
  induction kids as [|kid kids IHkids]; constructor; [apply IH | exact IHkids].
Qed.

(** Without a match there is no sibling of a match. *)
Lemma querySelectorNextSibling_none (sel : selector) (n : node) :
  filter (matches sel) (descendants n) = [] ->
  querySelectorNextSibling sel n = None.
Proof.
  induction n as [data|data|tag classes kids IH] using node_induction;
    try reflexivity.
  simpl. induction IH as [|kid kids Hkid _ IHkids]; [reflexivity|].
  rewrite filter_app. intros Hnone. apply app_eq_nil in Hnone.
  destruct Hnone as [Hkid_none Hrest].
  destruct kid as [data|data|tag' classes' kids'].
  - simpl. now apply IHkids.
  - simpl. now apply IHkids.
  - cbn [isElement] in Hkid_none. cbn [filter] in Hkid_none.
    destruct (matches sel (Element tag' classes' kids')) eqn:Hm; [discriminate|].
    rewrite (Hkid Hkid_none). now apply IHkids.
Qed.

Lemma abs_abs (x : number) : abs (abs x) = abs x.
Proof. now destruct x. Qed.

(** X9.  The two recoil keys are in every record and hold a number whose
    sign is cleared or [NaN]; both hold [NaN] when the weapon block has no
    element of class [recoilHorValue]. *)
Theorem recoil_values (w : node) :
  exists left right,
    get "recoilLeft" (extract w []) = Some (VNumber left) /\
    get "recoilRight" (extract w []) = Some (VNumber right) /\
    abs left = left /\ abs right = right /\
    (querySelector ".recoilHorValue" w = None -> left = NaN /\ right = NaN).
Proof.
  assert (HL : In ("recoilLeft", "recoilHorValue", Some (recoilLeftBehavior w)) (rules w)).
  { unfold rules. do 9 right. now left. }
  assert (HR : In ("recoilRight", "recoilHorValue", Some (recoilRightBehavior w)) (rules w)).
  { unfold rules. do 10 right. now left. }
  destruct (extract_at w _ HL) as (o1 & _ & EL).
  destruct (extract_at w _ HR) as (o2 & _ & ER).
  cbn [property fst] in EL, ER.
  exists (abs (Number (getValue w "recoilHorValue" noOptions))),
         (abs (Number (getValueOfSibling w "recoilHorValue" noOptions))).
  rewrite EL, ER. unfold applyRule. cbn [customBehavior property className fst snd].
  unfold recoilLeftBehavior, recoilRightBehavior. rewrite !get_set_same, !abs_abs.
  repeat split.
  - unfold getValue. simpl append. now rewrite H.
  - unfold getValueOfSibling. simpl append.
    rewrite querySelectorNextSibling_none; [reflexivity|].
    now apply querySelector_none_all in H.
Qed.

(* ===================================================================== *)
(** ** The two loops *)
(* ===================================================================== *)

Lemma fold_left_flat_map {A B C : Type} (f : A -> C -> A) (g : B -> list C)
      (l : list B) (a : A) :
  fold_left (fun a x => fold_left f (g x) a) l a = fold_left f (flat_map g l) a.
Proof.
  revert a. induction l as [|x l IH]; intros a; simpl; [reflexivity|].
  now rewrite fold_left_app, IH.
Qed.

(** The nested loops visit the weapon blocks one after the other. *)
Lemma scrape_weapons (document : node) :
  scrape document = fold_left processWeapon (Script.weapons document) emptyStore.
Proof. unfold scrape, Script.weapons. apply fold_left_flat_map. Qed.

Lemma processWeapons_heap (ws : list node) (st : store) :
  heap (fold_left processWeapon ws st)
  = (heap st ++ map (fun w => extract w []) ws)%list.
Proof.
  revert st. induction ws as [|w ws IH]; intros st.
  - cbn [fold_left map]. rewrite app_nil_r. reflexivity.
  - rewrite fold_left_cons, map_cons, IH, processWeapon_result.
    cbn [heap]. rewrite <- app_assoc. reflexivity.
Qed.

Lemma processWeapons_other_key (ws : list node) (st : store) (k : string) :
  (forall w, In w ws -> Script.nameKey w <> k) ->
  get k (symData (fold_left processWeapon ws st)) = get k (symData st).
Proof.
  revert st. induction ws as [|w ws IH]; intros st Hws; [reflexivity|].
  rewrite fold_left_cons, IH by (intros; apply Hws; now right).
  rewrite processWeapon_result. cbn [symData].
  apply get_assign_other. intros ->. apply (Hws w); [now left | reflexivity].
Qed.

(** The loops never give [symData] an own [__proto__] property. *)
Lemma processWeapons_no_own_proto (ws : list node) (st : store) :
  get "__proto__" (symData st) = None ->
  get "__proto__" (symData (fold_left processWeapon ws st)) = None.
Proof.
  revert st. induction ws as [|w ws IH]; intros st Hown; [exact Hown|].
  rewrite fold_left_cons. apply IH. rewrite processWeapon_result. cbn [symData].
  destruct (string_dec (ToString (weaponName w)) "__proto__") as [E|E].
  - rewrite E. destruct (assign_proto (List.length (heap st)) st Hown) as [-> _].
    exact Hown.
  - rewrite get_assign_other by (intros E'; apply E; now symmetry). exact Hown.
Qed.

(** The script allocates one record per weapon block, in document order,
    and each is what the rule list extracts from its block. *)
Lemma scrape_heap (document : node) :
  heap (scrape document) = map (fun w => extract w []) (Script.weapons document).
Proof. rewrite scrape_weapons, processWeapons_heap. reflexivity. Qed.

(** X10.  A weapon block whose name is not [__proto__] and after which no
    block has the same name is found in [symData] under its name with its
    own record: of two blocks with one name the later wins. *)
Theorem last_weapon_wins (document : node) (before : list node) (w : node)
        (after : list node) :
  Script.weapons document = (before ++ w :: after)%list ->
  Script.nameKey w <> "__proto__" ->
  (forall w', In w' after -> Script.nameKey w' <> Script.nameKey w) ->
  get (Script.nameKey w) (resolve (scrape document)) = Some (extract w []).
Proof.
  intros Hws Hname Hafter. unfold resolve. rewrite get_map, scrape_heap.
  rewrite scrape_weapons, Hws, fold_left_app, fold_left_cons.
  rewrite (processWeapons_other_key after _ _ Hafter).
  rewrite processWeapon_result. cbn [symData]. fold (Script.nameKey w).
  rewrite symData_assign by exact Hname.
  rewrite get_set_same, processWeapons_heap. cbn [heap option_map app].
  change (heap emptyStore) with (@nil (object value)). cbn [app].
  rewrite map_app, map_cons, nth_middle. reflexivity.
Qed.

Lemma last_weapon_wins_witness :
  get "Test Rifle" (resolve (scrape Script.page))
  = Some [("ammoCapacity", VNumber (StringToNumber "10"));
          ("recoilLeft", VNumber NaN); ("recoilRight", VNumber NaN);
          ("recoilFirstShotMultiplier", VUndefined);
          ("adsStandBaseMin", VUndefined); ("adsStandBaseMax", VUndefined);
          ("adsCrouchBaseMin", VUndefined); ("adsCrouchBaseMax", VUndefined);
          ("adsProneBaseMin", VUndefined); ("adsProneBaseMax", VUndefined);
          ("hipStandBaseMin", VUndefined); ("hipStandBaseMax", VUndefined);
          ("hipCrouchBaseMin", VUndefined); ("hipCrouchBaseMax", VUndefined);
          ("hipProneBaseMin", VUndefined); ("hipProneBaseMax", VUndefined);
          ("adsStandSpreadInc", VUndefined); ("hipStandSpreadInc", VUndefined);
          ("adsStandFirstSpreadMul", VNumber NaN);
          ("hipStandFirstSpreadMul", VNumber NaN);
          ("adsStandSpreadDec", VUndefined); ("hipStandSpreadDec", VUndefined)].
Proof.
  generalize (last_weapon_wins Script.page
                [Samples.shotgun; Samples.steadyRifle; Samples.looseRifle]
                (Element "div" ["weapon"]
                   [Samples.labelled "lblWeaponNameValue" "Test Rifle";
                    Samples.labelled "lblMag" "10"])
                [] eq_refl ltac:(vm_compute; intros H; discriminate H)
                (fun w' (H : In w' []) => match H with end)).
  vm_compute. exact (fun H => H).
Defined.

(** *** The keys of [symData] *)

Lemma get_none_keys {V : Type} (k : string) (o : object V) :
  get k o = None -> ~ In k (keys o).
Proof.
  induction o as [|[k' v] o IH]; simpl; [tauto|].
  destruct (String.eqb_spec k k') as [->|Hne]; [discriminate|].
  intros Hnone [E|Hin]; [now apply Hne | now apply IH].
Qed.

Lemma keys_insertIndex {V : Type} (i : N) (k : string) (v : V) (o : object V) :
  Permutation (keys (insertIndex i k v o)) (k :: keys o).
Proof.
  induction o as [|[k' v'] o IH]; simpl; [reflexivity|].
  destruct (arrayIndex k') as [j|]; [destruct (j <? i)%N|]; simpl; try reflexivity.
  rewrite IH. apply perm_swap.
Qed.

(** An assignment adds its key to the keys unless it is there. *)
Lemma keys_set {V : Type} (k : string) (v : V) (o : object V) :
  (get k o <> None /\ keys (set k v o) = keys o) \/
  (get k o = None /\ Permutation (keys (set k v o)) (k :: keys o)).
Proof.
  destruct (get k o) as [v'|] eqn:G.
  - left. split; [discriminate|]. apply keys_set_old. congruence.
  - right. split; [reflexivity|]. unfold set. rewrite G.
    destruct (arrayIndex k).
    + apply keys_insertIndex.
    + unfold keys. rewrite map_app. simpl. symmetry. apply Permutation_cons_append.
Qed.

Lemma keys_set_In {V : Type} (k k' : string) (v : V) (o : object V) :
  In k' (keys (set k v o)) <-> k' = k \/ In k' (keys o).
Proof.
  destruct (keys_set k v o) as [[Hsome ->]|[Hnone Hperm]].
  - split; [now right|]. intros [->|Hin]; [|exact Hin].
    destruct (get k o) as [v'|] eqn:G; [|congruence].
    apply get_In in G. now apply (in_map fst) in G.
  - split.
    + intros Hin. apply (Permutation_in _ Hperm) in Hin.
      destruct Hin as [<-|Hin]; [now left | now right].
    + intros H. apply (Permutation_in _ (Permutation_sym Hperm)).
      destruct H as [->|Hin]; [now left | now right].
Qed.

Lemma keys_set_NoDup {V : Type} (k : string) (v : V) (o : object V) :
  NoDup (keys o) -> NoDup (keys (set k v o)).
Proof.
  intros ND. destruct (keys_set k v o) as [[Hsome ->]|[Hnone Hperm]]; [exact ND|].
  apply (Permutation_NoDup (Permutation_sym Hperm)).
  constructor; [now apply get_none_keys | exact ND].
Qed.

(** The assignment adds its key to the own properties unless the key is
    [__proto__]. *)
Lemma keys_assign_In (key : string) (ref : nat) (st : store) (k : string) :
  In k (keys (symData (assign key ref st)))
  <-> In k (keys (symData st)) \/ (k = key /\ key <> "__proto__").
Proof.
  unfold assign. destruct (get key (symData st)) as [old|] eqn:G;
    [|destruct (String.eqb_spec key "__proto__") as [Hproto|Hproto]];
    cbn [symData]; rewrite ?keys_set_In.
  - apply get_In, (in_map fst) in G. cbn [fst] in G. fold (keys (symData st)) in G.
    split.
    + intros [->|H]; left; assumption.
    + intros [H|[-> _]]; [now right | now right].
  - split; [now left|]. intros [H|[_ H]]; [exact H | contradiction].
  - split.
    + intros [->|H]; [right; now split | now left].
    + intros [H|[-> _]]; [now right | now left].
Qed.

Lemma keys_assign_NoDup (key : string) (ref : nat) (st : store) :
  NoDup (keys (symData st)) -> NoDup (keys (symData (assign key ref st))).
Proof.
  intros ND. unfold assign. destruct (get key (symData st));
    [|destruct (String.eqb key "__proto__")];
    cbn [symData]; try exact ND; now apply keys_set_NoDup.
Qed.

Lemma processWeapons_keys (ws : list node) (st : store) :
  (forall k, In k (keys (symData (fold_left processWeapon ws st)))
             <-> In k (keys (symData st))
                 \/ (k <> "__proto__" /\ exists w, In w ws /\ Script.nameKey w = k)) /\
  (NoDup (keys (symData st)) ->
   NoDup (keys (symData (fold_left processWeapon ws st)))).
Proof.
  revert st. induction ws as [|w ws IH]; intros st.
  - cbn [fold_left]. split; [|auto]. intros k. split; [now left|].
    intros [H|(_ & w & [] & _)]. exact H.
  - rewrite fold_left_cons. destruct (IH (processWeapon st w)) as [IHin IHnd]. split.
    + intros k. rewrite IHin, processWeapon_result. cbn [symData].
      fold (Script.nameKey w). rewrite keys_assign_In. split.
      * intros [[H|[-> Hname]]|(Hk & w' & Hw' & E)].
        -- now left.
        -- right. split; [exact Hname|]. exists w. split; [now left | reflexivity].
        -- right. split; [exact Hk|]. exists w'. split; [now right | exact E].
      * intros [H|(Hk & w' & [<-|Hw'] & E)].
        -- left. now left.
        -- left. right. split; [now symmetry | now rewrite E].
        -- right. split; [exact Hk|]. now exists w'.
    + intros ND. apply IHnd. rewrite processWeapon_result. cbn [symData].
      apply keys_assign_NoDup. exact ND.
Qed.

Lemma scrape_keys_In (document : node) (k : string) :
  In k (keys (symData (scrape document)))
  <-> k <> "__proto__"
      /\ exists w, In w (Script.weapons document) /\ Script.nameKey w = k.
Proof.
  rewrite scrape_weapons.
  destruct (processWeapons_keys (Script.weapons document) emptyStore) as [Hin _].
  rewrite Hin. simpl. tauto.
Qed.

Lemma scrape_keys_NoDup (document : node) : NoDup (keys (symData (scrape document))).
Proof.
  rewrite scrape_weapons.
  destruct (processWeapons_keys (Script.weapons document) emptyStore) as [_ Hnd].
  apply Hnd. constructor.
Qed.

(** X11.  The keys of [symData] are the names of the weapon blocks other
    than [__proto__], each once however many blocks carry it; a block
    named [__proto__] adds no key. *)
Theorem scrape_keys (document : node) :
  (forall k, In k (keys (symData (scrape document)))
             <-> k <> "__proto__"
                 /\ exists w, In w (Script.weapons document) /\ Script.nameKey w = k) /\
  NoDup (keys (symData (scrape document))).
Proof.
  split; [intros k; apply scrape_keys_In | apply scrape_keys_NoDup].
Qed.

(* ===================================================================== *)
(** ** The layout of the pretty output *)
(* ===================================================================== *)

Lemma get_NoDup {V : Type} (k : string) (v : V) (o : object V) :
  NoDup (keys o) -> In (k, v) o -> get k o = Some v.
Proof.
  induction o as [|[k' v'] o IH]; simpl; [tauto|].
  intros ND [[= -> ->]|Hin].
  - now rewrite String.eqb_refl.
  - inversion ND as [|? ? Hfresh ND']; subst.
    destruct (String.eqb_spec k k') as [->|Hne]; [|now apply IH].
    exfalso. apply Hfresh. now apply (in_map fst) in Hin.
Qed.

(** The inner loop writes the attribute lines with a comma between two of
    them. *)
Lemma prettifyStats_layout (stats : object value) (result : string) :
  NoDup (keys stats) ->
  prettifyStats stats result = result ++ Script.attributeLines stats.
Proof.
  intros ND. unfold prettifyStats.
  assert (H : forall rest done result,
             stats = (done ++ rest)%list ->
             fst (fold_left
                    (fun '(result, statsSeen) attribute =>
                       (result ++ DOUBLE_INDENT ++ DQUOTE ++ attribute ++ DQUOTE ++ ": "
                               ++ ToString (read attribute stats)
                               ++ (if statsSeen + 1 <? Z.of_nat (List.length (keys stats))
                                   then "," else "") ++ LF,
                        statsSeen + 1))
                    (keys rest) (result, Z.of_nat (List.length done)))
             = result ++ Script.attributeLines rest).
  { induction rest as [|[a v] rest IH]; intros done res E.
    - simpl. now rewrite append_empty_r.
    - cbn [keys map fst fold_left]. fold (keys rest).
      assert (Hread : read a stats = v).
      { unfold read. rewrite (get_NoDup a v stats ND); [reflexivity|].
        rewrite E. apply in_or_app. right. now left. }
      assert (Hlen : Z.of_nat (List.length (keys stats))
                     = Z.of_nat (List.length done) + 1 + Z.of_nat (List.length rest)).
      { unfold keys. rewrite length_map, E, length_app. simpl. lia. }
      assert (Hdone : Z.of_nat (List.length (done ++ [(a, v)]))
                      = Z.of_nat (List.length done) + 1).
      { rewrite length_app. simpl. lia. }
      rewrite Hread.
      match goal with
      | |- fst (fold_left _ _ (?r, _)) = _ =>
          pose proof (IH (done ++ [(a, v)])%list r) as IH'
      end.
      rewrite Hdone in IH'. rewrite IH' by (rewrite <- app_assoc; exact E).
      unfold Script.attributeLines at 2. fold Script.attributeLines.
      unfold Script.attributeLine. cbn [fst snd].
      destruct (Z.ltb_spec (Z.of_nat (List.length done) + 1)
                           (Z.of_nat (List.length (keys stats)))) as [Hlt|Hge];
        destruct rest as [|next rest]; simpl List.length in Hlen; try lia.
      + now normalize_append.
      + cbn [Script.attributeLines]. rewrite append_empty_r. now normalize_append. }
  exact (H stats [] result eq_refl).
Qed.

Lemma weaponBlocks_trailing (symData : list (string * object value)) :
  symData <> [] ->
  String.concat "" (map (fun weapon => Script.weaponBlock weapon ++ "," ++ LF) symData)
  = Script.weaponBlocks symData ++ "," ++ LF.
Proof.
  induction symData as [|weapon rest IH]; [congruence|]. intros _.
  cbn [map String.concat Script.weaponBlocks].
  destruct rest as [|next rest].
  - cbn [map String.concat]. reflexivity.
  - replace (String.concat "" (map (fun weapon => Script.weaponBlock weapon ++ "," ++ LF)
                                   (next :: rest)))
      with (Script.weaponBlocks (next :: rest) ++ "," ++ LF) by (symmetry; now apply IH).
    cbn [map]. rewrite !append_assoc. reflexivity.
Qed.

Lemma concat_empty_sep_cons (s : string) (l : list string) :
  String.concat "" (s :: l) = s ++ String.concat "" l.
Proof. destruct l; simpl; [now rewrite append_empty_r | reflexivity]. Qed.

(** The outer loop writes the weapon blocks, and the final [substring]
    cuts the comma and the line feed after the last of them. *)
Lemma prettifySymData_blocks (symData : object (object value)) :
  symData <> [] ->
  NoDup (keys symData) ->
  (forall name stats, In (name, stats) symData -> NoDup (keys stats)) ->
  prettifySymData symData = "{" ++ LF ++ Script.weaponBlocks symData ++ LF ++ "}".
Proof.
  intros Hne ND Hstats. unfold prettifySymData.
  assert (H : forall rest result,
             (forall weapon, In weapon rest -> In weapon symData) ->
             fold_left
               (fun result weapon =>
                  match get weapon symData with
                  | Some stats =>
                      prettifyStats stats
                        (result ++ INDENT ++ DQUOTE ++ weapon ++ DQUOTE ++ ": {" ++ LF)
                      ++ INDENT ++ "}," ++ LF
                  | None => result
                  end)
               (keys rest) result
             = result ++ String.concat ""
                  (map (fun weapon => Script.weaponBlock weapon ++ "," ++ LF) rest)).
  { induction rest as [|[name stats] rest IH]; intros result Hin.
    - simpl. now rewrite append_empty_r.
    - cbn [keys map fst fold_left]. fold (keys rest).
      assert (Hhere : In (name, stats) symData) by (apply Hin; now left).
      rewrite (get_NoDup name stats symData ND Hhere).
      rewrite (prettifyStats_layout stats _ (Hstats name stats Hhere)).
      rewrite IH by (intros; apply Hin; now right).
      rewrite concat_empty_sep_cons. unfold Script.weaponBlock. cbn [fst snd].
      rewrite !append_assoc. reflexivity. }
  cbv zeta. rewrite (H symData ("{" ++ LF)) by auto.
  rewrite (weaponBlocks_trailing symData Hne).
  replace (("{" ++ LF) ++ Script.weaponBlocks symData ++ "," ++ LF)
    with (("{" ++ LF ++ Script.weaponBlocks symData) ++ String "," LF)
    by (rewrite !append_assoc; reflexivity).
  rewrite substring0_drop2 by reflexivity.
  rewrite !append_assoc. reflexivity.
Qed.

(** X12.  For a non-empty mapping with distinct weapon names and distinct
    attribute names, the pretty printer writes an opening brace, the
    weapon blocks separated by a comma and a line feed, and a closing
    brace; in a block the attribute lines are separated by commas. *)
Theorem prettifySymData_layout (symData : object (object value)) :
  symData <> [] ->
  NoDup (keys symData) ->
  (forall name stats, In (name, stats) symData -> NoDup (keys stats)) ->
  prettifySymData symData = "{" ++ LF ++ Script.weaponBlocks symData ++ LF ++ "}".
Proof. exact (prettifySymData_blocks symData). Qed.

Lemma prettifySymData_layout_witness :
  prettifySymData [("M1", [("a", VNumber zero)]); ("M2", []);
                   ("M3", [("a", VUndefined); ("b", VNumber NaN); ("c", VString "x")])]
  = "{" ++ LF
    ++ "  " ++ DQUOTE ++ "M1" ++ DQUOTE ++ ": {" ++ LF
    ++ "    " ++ DQUOTE ++ "a" ++ DQUOTE ++ ": 0" ++ LF
    ++ "  }," ++ LF
    ++ "  " ++ DQUOTE ++ "M2" ++ DQUOTE ++ ": {" ++ LF
    ++ "  }," ++ LF
    ++ "  " ++ DQUOTE ++ "M3" ++ DQUOTE ++ ": {" ++ LF
    ++ "    " ++ DQUOTE ++ "a" ++ DQUOTE ++ ": undefined," ++ LF
    ++ "    " ++ DQUOTE ++ "b" ++ DQUOTE ++ ": NaN," ++ LF
    ++ "    " ++ DQUOTE ++ "c" ++ DQUOTE ++ ": x" ++ LF
    ++ "  }" ++ LF
    ++ "}".
Proof.
  apply (prettifySymData_layout
           [("M1", [("a", VNumber zero)]); ("M2", []);
            ("M3", [("a", VUndefined); ("b", VNumber NaN); ("c", VString "x")])]).
  - discriminate.
  - repeat (constructor; [simpl; intuition discriminate|]). constructor.
  - intros name stats [[= <- <-]|[[= <- <-]|[[= <- <-]|[]]]];
      repeat (constructor; [simpl; intuition discriminate|]); constructor.
Defined.

(** *** The pretty file of the script *)

Lemma keys_resolve (st : store) : keys (resolve st) = keys (symData st).
Proof.
  unfold resolve, keys. rewrite map_map. apply map_ext. now intros [name ref].
Qed.

(** X13.  For a page with at least one weapon block whose name is not
    [__proto__] the content of the pretty file is an opening brace, one
    block per weapon name that [symData] holds, separated by commas, and a
    closing brace. *)
Theorem prettyOutput_layout (document : node) :
  (exists w, In w (Script.weapons document) /\ Script.nameKey w <> "__proto__") ->
  prettyOutput document
  = "{" ++ LF ++ Script.weaponBlocks (resolve (scrape document)) ++ LF ++ "}".
Proof.
  intros (w & Hw & Hname). unfold prettyOutput. apply prettifySymData_blocks.
  - intros Hempty. apply (f_equal keys) in Hempty. rewrite keys_resolve in Hempty.
    assert (H : In (Script.nameKey w) (keys (symData (scrape document)))).
    { apply scrape_keys_In. split; [exact Hname|]. exists w. now split. }
    rewrite Hempty in H. exact H.
  - rewrite keys_resolve. apply scrape_keys_NoDup.
  - intros name stats Hin. unfold resolve in Hin. rewrite scrape_heap in Hin.
    apply in_map_iff in Hin. destruct Hin as ([name' ref] & [= _ <-] & _).
    destruct (nth_in_or_default ref (map (fun w => extract w [])
                                         (Script.weapons document)) [])
      as [Hheap | ->]; [|constructor].
    apply in_map_iff in Hheap. destruct Hheap as (w' & <- & _). apply extract_keys_NoDup.
Qed.

Lemma prettyOutput_layout_witness :
  prettyOutput Script.page
  = "{" ++ LF ++ Script.weaponBlocks (resolve (scrape Script.page)) ++ LF ++ "}".
Proof.
  apply (prettyOutput_layout Script.page). exists Samples.shotgun. split.
  - left. reflexivity.
  - vm_compute. intros H. discriminate H.
Defined.

(** X14.  For a page without a weapon block the content of the pretty
    file is a line feed and a closing brace: the opening brace is cut. *)
Theorem prettyOutput_without_weapons (document : node) :
  Script.weapons document = [] ->
  prettyOutput document = LF ++ "}".
Proof.
  intros Hnone. unfold prettyOutput. rewrite scrape_weapons, Hnone. reflexivity.
Qed.

Lemma prettyOutput_without_weapons_witness :
  prettyOutput Script.blankPage = LF ++ "}".
Proof. apply (prettyOutput_without_weapons Script.blankPage). reflexivity. Defined.

(* ===================================================================== *)
(** ** The earlier script and the current one *)
(* ===================================================================== *)

(** A rule list whose rules assign to their own property only. *)
Section Frame.

Variable apply : object value -> rule -> object value.
Variable rs : list rule.
Hypothesis apply_other :
  forall r o k, In r rs -> k <> property r -> get k (apply o r) = get k o.
Hypothesis properties_NoDup : NoDup (map property rs).

Lemma frame_fold (l : list rule) (o : object value) (k : string) :
  (forall r, In r l -> In r rs) ->
  (forall r, In r l -> property r <> k) ->
  get k (fold_left apply l o) = get k o.
Proof.
  revert o. induction l as [|r l IH]; intros o Hin Hk; [reflexivity|].
  rewrite fold_left_cons, IH.
  - apply apply_other; [apply Hin; now left|].
    intros E. apply (Hk r); [now left | now symmetry].
  - intros; apply Hin; now right.
  - intros; apply Hk; now right.
Qed.

Lemma frame_absent (k : string) :
  ~ In k (map property rs) -> get k (fold_left apply rs []) = None.
Proof.
  intros Hk. rewrite frame_fold; [reflexivity | auto |].
  intros r Hr E. apply Hk. rewrite <- E. now apply in_map.
Qed.

Lemma frame_at_rule (r : rule) :
  In r rs ->
  exists o,
    get (property r) o = None /\
    get (property r) (fold_left apply rs []) = get (property r) (apply o r).
Proof.
  intros Hin. destruct (in_split _ _ Hin) as (before & after & E).
  pose proof properties_NoDup as ND.
  rewrite E, map_app in ND. cbn [map] in ND. apply NoDup_remove_2 in ND.
  exists (fold_left apply before []). split.
  - apply frame_fold.
    + intros r' H'. rewrite E. apply in_or_app. now left.
    + intros r' H' E'. apply ND, in_or_app. left. rewrite <- E'. now apply in_map.
  - rewrite E at 1. rewrite fold_left_app, fold_left_cons. apply frame_fold.
    + intros r' H'. rewrite E. apply in_or_app. right. now right.
    + intros r' H' E'. apply ND, in_or_app. right. rewrite <- E'. now apply in_map.
Qed.

Lemma frame_at (k : string) :
  In k (map property rs) ->
  exists r o,
    In r rs /\ property r = k /\ get k o = None /\
    get k (fold_left apply rs []) = get k (apply o r).
Proof.
  intros Hk. apply in_map_iff in Hk. destruct Hk as (r & <- & Hin).
  destruct (frame_at_rule r Hin) as (o & Ho & E).
  now exists r, o.
Qed.

End Frame.

Lemma legacy_applyRule_other (w : node) (r : rule) (o : object value) (k : string) :
  In r (LegacyScript.rules w) -> k <> property r ->
  get k (LegacyScript.applyRule w o r) = get k o.
Proof.
  intros Hin Hk. unfold LegacyScript.rules in Hin. simpl in Hin.
  repeat (destruct Hin as [<-|Hin];
          [ unfold LegacyScript.applyRule;
            cbn [customBehavior property className fst snd] in *;
            first
              [ destruct (LegacyScript.getText w _ None);
                rewrite ?get_set_other by exact Hk; reflexivity
              | unfold LegacyScript.pelletsBehavior; destruct (find _ _);
                rewrite ?get_set_other by exact Hk; reflexivity
              | unfold Legacy.adsStandFirstSpreadMul, Legacy.hipStandFirstSpreadMul,
                  Legacy.getSpread, LegacyScript.horizontalRecoilBehavior,
                  LegacyScript.recoilFirstShotBehavior;
                rewrite ?get_set_other by exact Hk; reflexivity ]
          | ]).
  destruct Hin.
Qed.

Lemma legacy_properties_NoDup (w : node) : NoDup (map property (LegacyScript.rules w)).
Proof.
  unfold LegacyScript.rules. cbn [map property fst].
  repeat (constructor; [simpl; intuition discriminate|]). constructor.
Qed.

(** What each multiplier rule of the earlier script leaves in the record:
    the divisor is the increase of its own firing mode. *)
Lemma legacy_firstSpreadMul_value (w : node) (col : Z) (p inc : string)
      (custom : behavior) (before after : list rule) :
  LegacyScript.rules w
  = (before ++ (p, "spreadIncDecTable", Some custom) :: after)%list ->
  (forall property className weapon,
      custom property className weapon
      = set property
            (Legacy.firstSpreadMul
               (Number (read inc (Legacy.getSpread w 1 col true property className weapon)))
               (Number (read property
                             (Legacy.getSpread w 1 col true property className weapon))))
            (Legacy.getSpread w 1 col true property className weapon)) ->
  p <> inc ->
  (forall r, In r after -> property r <> inc /\ property r <> p) ->
  get p (LegacyScript.extract w [])
  = Some (Legacy.firstSpreadMul
            (Number (read inc (LegacyScript.extract w [])))
            (Number (Legacy.prune (Legacy.cellText w "spreadIncDecTable" 1 col) None))).
Proof.
  intros E Hcustom Hp Hafter.
  assert (Hin : forall r, In r after -> In r (LegacyScript.rules w)).
  { intros r Hr. rewrite E. apply in_or_app. right. now right. }
  assert (Hself : In (p, "spreadIncDecTable", Some custom) (LegacyScript.rules w)).
  { rewrite E. apply in_or_app. right. now left. }
  pose proof (fun r o k => legacy_applyRule_other w r o k) as Hother.
  set (o := fold_left (LegacyScript.applyRule w) before []).
  assert (Hsplit : LegacyScript.extract w []
                   = fold_left (LegacyScript.applyRule w) after
                       (LegacyScript.applyRule w o (p, "spreadIncDecTable", Some custom))).
  { unfold LegacyScript.extract. rewrite E, fold_left_app. reflexivity. }
  assert (Hread : read inc (LegacyScript.extract w []) = read inc o).
  { unfold read. rewrite Hsplit.
    rewrite (frame_fold _ _ Hother) by (auto; intros r Hr; now apply Hafter).
    rewrite (legacy_applyRule_other w _ _ inc Hself)
      by (cbn [property fst]; congruence).
    reflexivity. }
  rewrite Hread, Hsplit.
  rewrite (frame_fold _ _ Hother) by (auto; intros r Hr; now apply Hafter).
  unfold LegacyScript.applyRule. cbn [customBehavior property className fst snd].
  rewrite Hcustom, get_set_same. unfold Legacy.getSpread.
  rewrite read_set_same, read_set_other by congruence.
  clearbody o. reflexivity.
Qed.

(** X15.  In the earlier script the hip multiplier is derived from the
    hip increase: zero when [hipStandSpreadInc] is zero, otherwise the
    quotient of the first-shot hip cell by [hipStandSpreadInc], written by
    [toFixed(0)] and kept as a string. *)
Theorem legacy_hipStandFirstSpreadMul_value (w : node) :
  let sips := Number (read "hipStandSpreadInc" (LegacyScript.extract w [])) in
  let firstSips :=
    Number (Legacy.prune (Legacy.cellText w "spreadIncDecTable" 1 2) None) in
  get "hipStandFirstSpreadMul" (LegacyScript.extract w [])
  = Some (if strictEquals sips zero then VNumber sips
          else VString (toFixed 0 (div firstSips sips))).
Proof.
  cbv zeta.
  rewrite (legacy_firstSpreadMul_value w 2 "hipStandFirstSpreadMul" "hipStandSpreadInc"
             (Legacy.hipStandFirstSpreadMul w)
             (firstn 28 (LegacyScript.rules w)) (skipn 29 (LegacyScript.rules w)) eq_refl).
  - unfold Legacy.firstSpreadMul. reflexivity.
  - reflexivity.
  - discriminate.
  - simpl. intros r [<-|[<-|[]]]; split; discriminate.
Qed.

Lemma legacy_adsStandFirstSpreadMul_value (w : node) :
  get "adsStandFirstSpreadMul" (LegacyScript.extract w [])
  = Some (Legacy.firstSpreadMul
            (Number (read "adsStandSpreadInc" (LegacyScript.extract w [])))
            (Number (Legacy.prune (Legacy.cellText w "spreadIncDecTable" 1 1) None))).
Proof.
  apply (legacy_firstSpreadMul_value w 1 "adsStandFirstSpreadMul" "adsStandSpreadInc"
           (Legacy.adsStandFirstSpreadMul w)
           (firstn 27 (LegacyScript.rules w)) (skipn 28 (LegacyScript.rules w)) eq_refl).
  - reflexivity.
  - discriminate.
  - simpl. intros r [<-|[<-|[<-|[]]]]; split; discriminate.
Qed.

Lemma prune_numeric (text : option string) :
  prune text noOptions = Script.numeric (Legacy.prune text None).
Proof. now destruct text. Qed.

Lemma Number_numeric (v : value) : Number (Script.numeric v) = Number v.
Proof. now destruct v. Qed.

Ltac in_list := repeat first [left; reflexivity | right].

(** One rule of each script for the same key, run on records that do not
    hold the key yet. *)
Ltac same_rule HoM HoL :=
  unfold applyRule, LegacyScript.applyRule;
  cbn [customBehavior property className fst snd];
  first
    [ unfold getValue, LegacyScript.getText; rewrite prune_numeric;
      destruct (Legacy.prune _ None); cbn [Script.numeric];
      rewrite ?get_set_same, ?HoM, ?HoL; reflexivity
    | unfold pelletsBehavior, LegacyScript.pelletsBehavior, getAll, Legacy.getAll;
      destruct (find _ _);
      [ rewrite prune_numeric, !get_set_same; reflexivity
      | rewrite HoM, HoL; reflexivity ]
    | unfold getSpread, Legacy.getSpread, recoilFirstShotBehavior,
        LegacyScript.recoilFirstShotBehavior;
      rewrite !get_set_same, prune_numeric; reflexivity ].

Lemma scripts_agree_on_plain_rules (w : node) (k : string) :
  In k (map property (rules w)) ->
  k <> "adsStandFirstSpreadMul" -> k <> "hipStandFirstSpreadMul" ->
  k <> "recoilLeft" -> k <> "recoilRight" ->
  get k (extract w [])
  = option_map Script.numeric (get k (LegacyScript.extract w [])).
Proof.
  intros Hin Hads Hhip Hleft Hright.
  pose proof (fun r o k => applyRule_other w r o k) as HotherM.
  pose proof (fun r o k => legacy_applyRule_other w r o k) as HotherL.
  destruct (frame_at (applyRule w) (rules w) HotherM (rules_properties_NoDup w) k Hin)
    as (rM & oM & HrM & HpM & HoM & EM).
  unfold extract. rewrite EM. clear EM Hin.
  unfold rules in HrM. simpl in HrM.
  repeat (destruct HrM as [<-|HrM];
          [ cbn [property fst] in HpM; subst k;
            try congruence;
            (let HinL := fresh "HinL" in
             match goal with
             | |- get ?key _ = _ =>
                 assert (HinL : In key (map property (LegacyScript.rules w)))
                   by (unfold LegacyScript.rules; cbn [map property fst]; in_list);
                 destruct (frame_at (LegacyScript.applyRule w) (LegacyScript.rules w)
                             HotherL (legacy_properties_NoDup w) key HinL)
                   as (rL & oL & HrL & HpL & HoL & EL);
                 unfold LegacyScript.extract; rewrite EL; clear EL HinL;
                 unfold LegacyScript.rules in HrL; simpl in HrL;
                 repeat (destruct HrL as [<-|HrL];
                         [ cbn [property fst] in HpL; try discriminate HpL;
                           same_rule HoM HoL
                         | ]);
                 destruct HrL
             end)
          | ]).
  destruct HrM.
Qed.

(** X16.  The two scripts agree on every key but the horizontal-recoil keys
    and [hipStandFirstSpreadMul]: a weapon has the key in the current
    script's record exactly when it has it in the earlier script's record,
    and the current script holds the number that [Number] makes of the
    earlier script's value ([undefined] where the earlier script stored
    [undefined]). *)
Theorem scripts_agree (w : node) (k : string) :
  k <> "hipStandFirstSpreadMul" ->
  k <> "recoilLeft" -> k <> "recoilRight" -> k <> "horizontalRecoil" ->
  get k (extract w [])
  = option_map Script.numeric (get k (LegacyScript.extract w [])).
Proof.
  intros Hhip Hleft Hright Hhor.
  destruct (string_dec k "adsStandFirstSpreadMul") as [->|Hads].
  - pose proof (firstSpreadMul_value w 1 "adsStandFirstSpreadMul"
                  (firstn 28 (rules w)) (skipn 29 (rules w)) eq_refl) as HM.
    cbv zeta in HM. rewrite HM; clear HM.
    + rewrite legacy_adsStandFirstSpreadMul_value.
      unfold read.
      rewrite (scripts_agree_on_plain_rules w "adsStandSpreadInc");
        [ | unfold rules; cbn [map property fst]; in_list | discriminate..].
      rewrite prune_numeric, Number_numeric.
      change (cellText w "spreadIncDecTable" 1 1)
        with (Legacy.cellText w "spreadIncDecTable" 1 1).
      generalize (Number (Legacy.prune (Legacy.cellText w "spreadIncDecTable" 1 1) None)).
      generalize (get "adsStandSpreadInc" (LegacyScript.extract w [])).
      intros inc firstSips. unfold Legacy.firstSpreadMul.
      assert (Hsips : Number match option_map Script.numeric inc
                           with Some v => v | None => VUndefined end
                      = Number match inc with Some v => v | None => VUndefined end).
      { destruct inc; [apply Number_numeric | reflexivity]. }
      rewrite Hsips.
      destruct (strictEquals _ zero); reflexivity.
    + discriminate.
    + simpl. intros r [<-|[<-|[<-|[]]]]; split; discriminate.
  - destruct (in_dec string_dec k (map property (rules w))) as [Hin|Hout].
    + apply scripts_agree_on_plain_rules; assumption.
    + unfold extract, LegacyScript.extract.
      rewrite (frame_absent (applyRule w) (rules w)
                 (fun r o k => applyRule_other w r o k) k Hout).
      rewrite (frame_absent (LegacyScript.applyRule w) (LegacyScript.rules w)
                 (fun r o k => legacy_applyRule_other w r o k) k); [reflexivity|].
      intros HinL. unfold LegacyScript.rules in HinL. cbn [map property fst] in HinL.
      repeat (destruct HinL as [<-|HinL];
              [ first [ congruence
                      | apply Hout; unfold rules; cbn [map property fst]; in_list ]
              | ]).
      destruct HinL.
Qed.

Lemma scripts_agree_witness :
  get "pellets" (extract Samples.shotgun [])
  = option_map Script.numeric (get "pellets" (LegacyScript.extract Samples.shotgun [])).
Proof.
  apply scripts_agree; discriminate.
Defined.

(** X17.  The earlier script's [horizontalRecoil] is the current script's
    [recoilLeft] written as a string: both keys are in every record, and
    the earlier one holds [String] of the number the current one holds. *)
Theorem horizontalRecoil_is_recoilLeft (w : node) :
  get "horizontalRecoil" (LegacyScript.extract w [])
  = option_map (fun v => VString (ToString v)) (get "recoilLeft" (extract w [])) /\
  get "recoilLeft" (extract w []) <> None.
Proof.
  assert (HM : In ("recoilLeft", "recoilHorValue", Some (recoilLeftBehavior w)) (rules w)).
  { unfold rules. do 9 right. now left. }
  assert (HL : In ("horizontalRecoil", "recoilHorValue",
                   Some (LegacyScript.horizontalRecoilBehavior w))
                  (LegacyScript.rules w)).
  { unfold LegacyScript.rules. do 9 right. now left. }
  destruct (extract_at w _ HM) as (oM & _ & EM).
  destruct (frame_at_rule (LegacyScript.applyRule w) (LegacyScript.rules w)
              (fun r o k => legacy_applyRule_other w r o k)
              (legacy_properties_NoDup w) _ HL) as (oL & _ & EL).
  cbn [property fst] in EM, EL.
  unfold LegacyScript.extract. rewrite EM, EL.
  unfold applyRule, LegacyScript.applyRule.
  cbn [customBehavior property className fst snd].
  unfold recoilLeftBehavior, LegacyScript.horizontalRecoilBehavior.
  rewrite !get_set_same.
  unfold getValue, LegacyScript.getText.
  rewrite prune_numeric, Number_numeric.
  split; [reflexivity | discriminate].
Qed.
